(** * Flappy-Bird-Q-learning: the websocket model server ([assets/nn.py])

    A shallow embedding of [nn.py]: the tag constants, [predict], [train]
    and the connection [handler] with its receive loop, followed by the
    properties of the message protocol.

    Conventions of the embedding.
    - A message is a text frame, a Python [str].  A [str] is a [string]
      here; each [ascii] is one character (a code point below 256).
    - The numeric stack (NumPy parsing, Keras arithmetic and training) is
      not part of the repository: it is the interface [Framework] below.
      The network architecture, which [create_and_compile_model] fixes, is
      embedded concretely.
    - The peer of a connection is a script of actions.  What the handler
      does (its prints, its sends, its calls to [model.fit]) is a trace of
      events; what Keras itself writes to the terminal during [fit] is not
      recorded. *)

From Stdlib Require Import String Ascii List Bool Arith Lia ZArith.
From Stdlib Require Import DecimalString.
Import ListNotations.
Local Open Scope list_scope.
Local Open Scope string_scope.

(* ================================================================== *)
(** ** Python strings *)

Module PyStr.

(** [c.lower()] for one character: the capital letters [A]-[Z] and the
    Latin-1 capitals U+00C0-U+00DE (U+00D7, the multiplication sign, has
    no case) move 32 code points up. *)
Definition lower_char (c : ascii) : ascii :=
  let n := nat_of_ascii c in
  if (((65 <=? n) && (n <=? 90))
      || ((192 <=? n) && (n <=? 222) && negb (n =? 215)))%nat
  then ascii_of_nat (n + 32)
  else c.

(** [s.lower()] *)
Fixpoint lower (s : string) : string :=
  match s with
  | EmptyString => EmptyString
  | String c s' => String (lower_char c) (lower s')
  end.

(** [sub in s]: [sub] starts at some position of [s]. *)
Fixpoint str_in (sub s : string) : bool :=
  prefix sub s
  || match s with
     | EmptyString => false
     | String _ s' => str_in sub s'
     end.

(** [s[n:]] for a non-negative [n]. *)
Fixpoint slice_from (n : nat) (s : string) : string :=
  match n, s with
  | O, _ => s
  | S _, EmptyString => EmptyString
  | S n', String _ s' => slice_from n' s'
  end.

(** [sep.join(parts)] *)
Fixpoint join (sep : string) (parts : list string) : string :=
  match parts with
  | [] => EmptyString
  | [p] => p
  | p :: rest => p ++ sep ++ join sep rest
  end.

End PyStr.
Import PyStr.

(* ================================================================== *)
(** ** Exceptions, events and effectful computations *)

(** The exceptions of the program: [websockets.exceptions.ConnectionClosed],
    raised by [recv] and [send], and [ValueError], raised by NumPy. *)
Inductive exn : Type :=
| ConnectionClosed
| ValueError.

Inductive result (A : Type) : Type :=
| Ok (a : A)
| Raise (e : exn).
Arguments Ok {A} a.
Arguments Raise {A} e.

(** What the peer does, in order.  A script that ends stands for a peer
    that closes the connection at that point. *)
Inductive peer_action : Type :=
| Deliver (message : string)
| Hangup.

(** The connection object handed to [handler]. *)
Record websocket : Type := {
  remote_address : string;      (* as the f-string formats it *)
  close_text : string;          (* [str(e)] of the ConnectionClosed error *)
  script : list peer_action
}.

(* ================================================================== *)
(** ** The numeric framework (NumPy, Keras) *)

(** What [nn.py] takes from NumPy and Keras.  [np_fromstring data] is
    [np.fromstring(data, sep=',')]: [None] when the call raises, otherwise
    the one-dimensional array it returns.  [Variables] holds the weights of
    the layers together with the optimizer's slots; [fit_epochs] is the
    training that [model.fit] runs on one sample. *)
Class Framework : Type := {
  num : Type;
  fzero : num;
  fadd : num -> num -> num;
  fmul : num -> num -> num;
  fmax : num -> num -> num;
  np_fromstring : string -> option (list num);
  str : num -> string;
  Variables : Type;
  kernel : Variables -> nat -> nat -> nat -> num;
  bias : Variables -> nat -> nat -> num;
  fit_epochs : Variables -> list num -> list num -> nat -> Variables
}.

Section Server.

Context {F : Framework}.

(** *** Events and the computation monad *)

Inductive event : Type :=
| Printed (line : string)                      (* [print(line)] *)
| Sent (text : string)                         (* [websocket.send(text)] *)
| Fitted (x y : list num) (epochs : nat).      (* [model.fit(x, y, epochs)] *)

(** A computation yields the events it performed and either a value or
    the exception that stopped it. *)
Definition Comp (A : Type) : Type := (list event * result A)%type.

Definition ret {A} (a : A) : Comp A := ([], Ok a).

Definition raise {A} (e : exn) : Comp A := ([], Raise e).

Definition bind {A B} (c : Comp A) (k : A -> Comp B) : Comp B :=
  match c with
  | (evs, Ok a) => let (evs', r) := k a in ((evs ++ evs')%list, r)
  | (evs, Raise e) => (evs, Raise e)
  end.

Definition emit (ev : event) : Comp unit := ([ev], Ok tt).

Definition print (line : string) : Comp unit := emit (Printed line).

(** [try: c  except <those for which h is Some>: h e] *)
Definition try_except {A} (c : Comp A) (h : exn -> option (Comp A)) : Comp A :=
  match c with
  | (evs, Raise e) =>
      match h e with
      | Some (evs', r) => ((evs ++ evs')%list, r)
      | None => c
      end
  | _ => c
  end.

(** [try: c  finally: f] *)
Definition try_finally {A} (c : Comp A) (f : Comp unit) : Comp A :=
  match c, f with
  | (evs, r), (evs', Ok _) => ((evs ++ evs')%list, r)
  | (evs, _), (evs', Raise e) => ((evs ++ evs')%list, Raise e)
  end.

Notation "x <- c ;; k" := (bind c (fun x => k))
  (at level 61, c at next level, right associativity).
Notation "c ;; k" := (bind c (fun _ => k))
  (at level 61, right associativity).

(** *** The tags ([nn.py], lines 7-10) *)

Definition PREDICT_TAG : string := "predict:".
Definition PREDICT_TAG_LEN : nat := String.length PREDICT_TAG.
Definition TRAIN_TAG : string := "train:".
Definition TRAIN_TAG_LEN : nat := String.length TRAIN_TAG.

(** *** The network ([create_and_compile_model]) *)

Inductive activation : Type :=
| linear          (* no [activation] argument *)
| relu.           (* [tf.nn.relu] *)

(** A [Dense] layer as the constructor call describes it. *)
Record Dense : Type := {
  units : nat;
  act : activation
}.

(** A [Sequential] model: the shape of its [Input], its layers, and the
    values of its variables. *)
Record Sequential : Type := {
  input_shape : nat;
  layers : list Dense;
  variables : Variables
}.

(** The initial values of the variables are drawn by Keras when the
    layers are built; the draw is the argument [init]. *)
Definition create_and_compile_model (init : Variables) : Sequential :=
  {| input_shape := 7;
     layers := [ {| units := 4; act := relu |};
                 {| units := 2; act := linear |} ];
     variables := init |}.

Definition apply_activation (a : activation) (v : num) : num :=
  match a with
  | linear => v
  | relu => fmax v fzero
  end.

(** [sum_i x[i] * col(i)], the index of the head of [x] being [i]. *)
Fixpoint dot_from (i : nat) (x : list num) (col : nat -> num) : num :=
  match x with
  | [] => fzero
  | xi :: x' => fadd (fmul xi (col i)) (dot_from (S i) x' col)
  end.

(** Layer number [idx] applied to one sample:
    [activation(dot(x, kernel) + bias)], one output per unit. *)
Definition dense_call (w : Variables) (idx : nat) (l : Dense) (x : list num)
  : list num :=
  map (fun j =>
         apply_activation (act l)
           (fadd (dot_from 0 x (fun i => kernel w idx i j)) (bias w idx j)))
      (seq 0 (units l)).

Fixpoint forward (w : Variables) (idx : nat) (ls : list Dense) (x : list num)
  : list num :=
  match ls with
  | [] => x
  | l :: ls' => forward w (S idx) ls' (dense_call w idx l x)
  end.

(** [model.predict(x, verbose=False).flatten()] for [x] of shape (1, n). *)
Definition keras_predict (model : Sequential) (x : list num) : list num :=
  forward (variables model) 0 (layers model) x.

(** [model] with new values in its variables. *)
Definition set_variables (model : Sequential) (w : Variables) : Sequential :=
  {| input_shape := input_shape model;
     layers := layers model;
     variables := w |}.

(** [model.fit(x, y, epochs=epochs)] for one sample: the variables are
    updated in place, the layers stay. *)
Definition keras_fit (model : Sequential) (x y : list num) (epochs : nat)
  : Comp Sequential :=
  emit (Fitted x y epochs) ;;
  ret (set_variables model (fit_epochs (variables model) x y epochs)).

(** *** NumPy arrays *)

(** [a.reshape(1, n)] of a one-dimensional array: the size must be [n]. *)
Definition reshape_1 (n : nat) (a : list num) : Comp (list num) :=
  if (List.length a =? n)%nat then ret a else raise ValueError.

(** [np.fromstring(data, sep=',')] *)
Definition fromstring (data : string) : Comp (list num) :=
  match np_fromstring data with
  | Some a => ret a
  | None => raise ValueError
  end.

(** [a[lo:hi]] for [0 <= lo <= hi]. *)
Definition slice (lo hi : nat) (a : list num) : list num :=
  firstn (hi - lo) (skipn lo a).

(** *** [predict] and [train] ([nn.py], lines 29-39) *)

Definition predict (model : Sequential) (data : string) : Comp string :=
  input_array <- (a <- fromstring data ;; reshape_1 7 a) ;;
  let result := keras_predict model input_array in
  ret (join "," (map str result)).

(** The model is mutated in place: the computation returns it. *)
Definition train (model : Sequential) (data : string) : Comp Sequential :=
  parsed <- fromstring data ;;
  x <- reshape_1 7 (slice 0 7 parsed) ;;
  y <- reshape_1 2 (slice 7 9 parsed) ;;
  keras_fit model x y 1.

(** *** The connection *)

(** The peer can still be written to unless its next action is to hang
    up. *)
Definition peer_open (rest : list peer_action) : bool :=
  match rest with
  | Hangup :: _ => false
  | _ => true
  end.

(** [await websocket.send(text)], [rest] being what the peer does after
    its last delivered message. *)
Definition send (rest : list peer_action) (text : string) : Comp unit :=
  if peer_open rest then emit (Sent text) else raise ConnectionClosed.

(** *** [handler] ([nn.py], lines 42-78) *)

(** Lines 63-69: the response to a message that is not [exit], and the
    model after it. *)
Definition dispatch (model : Sequential) (message : string)
  : Comp (Sequential * string) :=
  if str_in PREDICT_TAG message then
    out <- predict model (slice_from PREDICT_TAG_LEN message) ;;
    ret (model, "predict:" ++ out)
  else if str_in TRAIN_TAG message then
    model' <- train model (slice_from TRAIN_TAG_LEN message) ;;
    ret (model', "Train done")
  else
    ret (model, "Processed message: '" ++ message ++ "'").

(** Lines 53-73, the [while True] loop.  [await websocket.recv()] takes
    the next delivered message off the script and raises
    [ConnectionClosed] when the peer has gone; [break] is the normal
    return. *)
Fixpoint loop (model : Sequential) (script : list peer_action) {struct script}
  : Comp unit :=
  match script with
  | Deliver message :: rest =>
      print ("< " ++ message) ;;
      if lower message =? "exit" then
        print "Client sent 'exit' message. Closing connection." ;;
        send rest "Goodbye!"
      else
        mr <- dispatch model message ;;
        let (model', response) := mr : Sequential * string in
        send rest response ;;
        print ("> " ++ response) ;;
        loop model' rest
  | _ => raise ConnectionClosed
  end.

Definition handler (ws : websocket) (init : Variables) : Comp unit :=
  print ("Client connected from " ++ remote_address ws) ;;
  let model := create_and_compile_model init in
  try_finally
    (try_except
       (loop model (script ws))
       (fun e =>
          match e with
          | ConnectionClosed =>
              Some (print ("Connection closed unexpectedly: " ++ close_text ws))
          | _ => None
          end))
    (print ("Client from " ++ remote_address ws ++ " disconnected.")).

(** *** Vocabulary of the properties *)

(** [c] with the events [evs] performed before it. *)
Definition after {A} (evs : list event) (c : Comp A) : Comp A :=
  ((evs ++ fst c)%list, snd c).

(** The models a session can hold: the one [handler] creates, and what
    [model.fit] makes of a model the session holds. *)
Inductive session_model : Sequential -> Prop :=
| session_fresh (init : Variables) :
    session_model (create_and_compile_model init)
| session_fitted (model : Sequential) (x y : list num) (epochs : nat) :
    session_model model ->
    session_model
      (set_variables model (fit_epochs (variables model) x y epochs)).

(** The part of a session in which the messages [served] are answered one
    after the other: the events of that part and the model at its end, or
    [None] when one of the messages is [exit] or raises. *)
Fixpoint serve (model : Sequential) (served : list string)
  : option (list event * Sequential) :=
  match served with
  | [] => Some ([], model)
  | message :: served' =>
      if lower message =? "exit" then None
      else
        match dispatch model message with
        | (evs, Ok (model', response)) =>
            match serve model' served' with
            | Some (evs', model'') =>
                Some ((Printed ("< " ++ message) :: evs
                         ++ Sent response :: Printed ("> " ++ response) :: evs')%list,
                      model'')
            | None => None
            end
        | (_, Raise _) => None
        end
  end.

(** [message] is not dispatched to [train]. *)
Definition no_training (message : string) : bool :=
  str_in PREDICT_TAG message || negb (str_in TRAIN_TAG message).

(** The payload of a tagged message in the words of the specification
    ("strip the tag, decode the remainder"): the text after the first
    occurrence of [tag] in [s].  It is compared below with what
    [handler] decodes, [slice_from (String.length tag) s]. *)
Fixpoint spec_payload (tag s : string) : option string :=
  if prefix tag s then Some (slice_from (String.length tag) s)
  else match s with
       | EmptyString => None
       | String _ s' => spec_payload tag s'
       end.

(** *** [nn_test.py]

    The script creates a model, trains it on one sample and prints the
    prediction for the input of that sample. *)
Definition nn_test_main (init : Variables) : Comp unit :=
  let model := create_and_compile_model init in
  trained <- train model "0.1,0.2,0.3,0.4,0.5,0.6,0.7,0.3,0.7" ;;
  out <- predict trained "0.1,0.2,0.3,0.4,0.5,0.6,0.7" ;;
  print out.

(** *** Vocabulary of the session properties *)

(** The messages [recv] can return: those the peer delivers before it
    hangs up. *)
Fixpoint delivered (script : list peer_action) : list string :=
  match script with
  | Deliver message :: rest => message :: delivered rest
  | _ => []
  end.

Definition is_sent (ev : event) : bool :=
  match ev with
  | Sent _ => true
  | _ => false
  end.

Definition is_fit (ev : event) : bool :=
  match ev with
  | Fitted _ _ _ => true
  | _ => false
  end.

(** The line that [handler] prints when it has received a message. *)
Definition is_received (ev : event) : bool :=
  match ev with
  | Printed line => prefix "< " line
  | _ => false
  end.

Definition count (p : event -> bool) (evs : list event) : nat :=
  List.length (filter p evs).

(** A call of [model.fit] on one sample of seven inputs and two targets,
    for one epoch. *)
Definition well_shaped_fit (ev : event) : Prop :=
  match ev with
  | Fitted x y epochs => List.length x = 7 /\ List.length y = 2 /\ epochs = 1
  | _ => True
  end.

(** The texts [handler] can send, [messages] being the messages of the
    session. *)
Definition reply_form (messages : list string) (ev : event) : Prop :=
  match ev with
  | Sent text =>
      text = "Goodbye!"
      \/ text = "Train done"
      \/ (exists a b, text = "predict:" ++ str a ++ "," ++ str b)
      \/ (exists message,
             In message messages /\
             text = "Processed message: '" ++ message ++ "'")
  | _ => True
  end.

End Server.

Notation "x <- c ;; k" := (bind c (fun x => k))
  (at level 61, c at next level, right associativity).
Notation "c ;; k" := (bind c (fun _ => k))
  (at level 61, right associativity).

(* ================================================================== *)
(** ** A reference framework on integers

    An instance of [Framework] with which the handler can be run on
    concrete messages.  Numbers are integers written in decimal; the
    parser accepts comma-separated integers only; training adds the target
    to the bias of the output layer.  It stands in for NumPy and Keras on
    inputs where their behaviour is not in question. *)

Module Reference.

(** The fields of [s] between the occurrences of [sep]; [acc] holds the
    characters of the current field read so far. *)
Fixpoint split_on (sep : ascii) (acc : string) (s : string) : list string :=
  match s with
  | EmptyString => [acc]
  | String c s' =>
      if Ascii.eqb c sep
      then acc :: split_on sep EmptyString s'
      else split_on sep (acc ++ String c EmptyString) s'
  end.

Definition fields (data : string) : list string :=
  match data with
  | EmptyString => []
  | _ => split_on "," EmptyString data
  end.

Definition parse_int (field : string) : option Z :=
  option_map Z.of_int (NilZero.int_of_string field).

Fixpoint parse_all (fs : list string) : option (list Z) :=
  match fs with
  | [] => Some []
  | f :: fs' =>
      match parse_int f, parse_all fs' with
      | Some v, Some vs => Some (v :: vs)
      | _, _ => None
      end
  end.

Definition int_str (v : Z) : string := NilZero.string_of_int (Z.to_int v).

Record weights : Type := {
  w_kernel : nat -> nat -> nat -> Z;
  w_bias : nat -> nat -> Z
}.

(** One epoch moves the bias of the output layer (layer 1) by the
    target. *)
Fixpoint fit_ref (w : weights) (x y : list Z) (epochs : nat) : weights :=
  match epochs with
  | O => w
  | S n =>
      fit_ref
        {| w_kernel := w_kernel w;
           w_bias := fun idx j =>
                       if (idx =? 1)%nat
                       then (w_bias w idx j + nth j y 0)%Z
                       else w_bias w idx j |}
        x y n
  end.

#[export] Instance ref_framework : Framework := {|
  num := Z;
  fzero := 0%Z;
  fadd := Z.add;
  fmul := Z.mul;
  fmax := Z.max;
  np_fromstring := fun data => parse_all (fields data);
  str := int_str;
  Variables := weights;
  kernel := w_kernel;
  bias := w_bias;
  fit_epochs := fit_ref
|}.

(** Initial variables: every kernel entry is 1, every bias 0. *)
Definition ones : weights :=
  {| w_kernel := fun _ _ _ => 1%Z; w_bias := fun _ _ => 0%Z |}.

Definition model0 : Sequential := create_and_compile_model ones.

Definition ws (actions : list peer_action) : websocket :=
  {| remote_address := "('127.0.0.1', 50000)";
     close_text := "no close frame received or sent";
     script := actions |}.

(** A session against the reference framework. *)
Definition run (actions : list peer_action) : Comp unit :=
  handler (ws actions) ones.

(** The lines that open and close the log of such a session. *)
Definition hello : event :=
  Printed "Client connected from ('127.0.0.1', 50000)".
Definition bye : event :=
  Printed "Client from ('127.0.0.1', 50000) disconnected.".
Definition closed : event :=
  Printed "Connection closed unexpectedly: no close frame received or sent".

End Reference.

(* ================================================================== *)
(** ** A reference framework on decimal numbers

    A second instance of [Framework], in which the payloads of
    [nn_test.py] can be decoded.  A number is a decimal fraction
    [mant / 10^scale]; sums, products and maxima of such numbers are
    exact.  Training is as in the integer framework. *)

Module DecimalReference.

Record dec : Type := {
  mant : Z;
  scale : nat
}.

Definition pow10 (n : nat) : Z := Z.pow 10 (Z.of_nat n).

(** The mantissa of [d] at the scale [s >= scale d]. *)
Definition at_scale (s : nat) (d : dec) : Z := (mant d * pow10 (s - scale d))%Z.

Definition dec_add (a b : dec) : dec :=
  let s := Nat.max (scale a) (scale b) in
  {| mant := at_scale s a + at_scale s b; scale := s |}.

Definition dec_mul (a b : dec) : dec :=
  {| mant := mant a * mant b; scale := scale a + scale b |}.

Definition dec_max (a b : dec) : dec :=
  let s := Nat.max (scale a) (scale b) in
  if (at_scale s a <=? at_scale s b)%Z then b else a.

(** The text before the first dot and, when there is a dot, the text
    after it. *)
Fixpoint cut_dot (s : string) : string * option string :=
  match s with
  | EmptyString => (EmptyString, None)
  | String c s' =>
      if Ascii.eqb c "." then (EmptyString, Some s')
      else let (before, after_dot) := cut_dot s' in (String c before, after_dot)
  end.

Definition parse_dec (field : string) : option dec :=
  match cut_dot field with
  | (whole, None) =>
      option_map (fun m => {| mant := Z.of_int m; scale := 0 |})
                 (NilZero.int_of_string whole)
  | (whole, Some digits) =>
      match NilZero.uint_of_string digits,
            NilZero.int_of_string (whole ++ digits) with
      | Some _, Some m =>
          Some {| mant := Z.of_int m; scale := String.length digits |}
      | _, _ => None
      end
  end.

Fixpoint parse_all (fs : list string) : option (list dec) :=
  match fs with
  | [] => Some []
  | f :: fs' =>
      match parse_dec f, parse_all fs' with
      | Some v, Some vs => Some (v :: vs)
      | _, _ => None
      end
  end.

Fixpoint zeros (n : nat) : string :=
  match n with
  | O => EmptyString
  | S n' => String "0" (zeros n')
  end.

Definition nat_str (n : Z) : string :=
  NilZero.string_of_uint (N.to_uint (Z.to_N n)).

(** [d] written with a decimal point. *)
Definition dec_str (d : dec) : string :=
  let a := Z.abs (mant d) in
  let whole := (a / pow10 (scale d))%Z in
  let part := nat_str (a mod pow10 (scale d)) in
  (if (mant d <? 0)%Z then "-" else EmptyString)
    ++ nat_str whole ++ "."
    ++ zeros (scale d - String.length part) ++ part.

Record weights : Type := {
  w_kernel : nat -> nat -> nat -> dec;
  w_bias : nat -> nat -> dec
}.

(** One epoch moves the bias of the output layer (layer 1) by the
    target. *)
Fixpoint fit_ref (w : weights) (x y : list dec) (epochs : nat) : weights :=
  match epochs with
  | O => w
  | S n =>
      fit_ref
        {| w_kernel := w_kernel w;
           w_bias := fun idx j =>
                       if (idx =? 1)%nat
                       then dec_add (w_bias w idx j)
                                    (nth j y {| mant := 0; scale := 0 |})
                       else w_bias w idx j |}
        x y n
  end.

#[export] Instance dec_framework : Framework := {|
  num := dec;
  fzero := {| mant := 0; scale := 0 |};
  fadd := dec_add;
  fmul := dec_mul;
  fmax := dec_max;
  np_fromstring := fun data => parse_all (Reference.fields data);
  str := dec_str;
  Variables := weights;
  kernel := w_kernel;
  bias := w_bias;
  fit_epochs := fit_ref
|}.

(** Initial variables: every kernel entry is 1, every bias 0. *)
Definition ones : weights :=
  {| w_kernel := fun _ _ _ => {| mant := 1; scale := 0 |};
     w_bias := fun _ _ => {| mant := 0; scale := 0 |} |}.

End DecimalReference.

(* ================================================================== *)
(** ** The decoding of a payload *)

Section Codec.

Context {F : Framework}.

(** Modelled from the spec: the comma-separated fields of a payload, as
    [np.fromstring(data, sep=',')] of NumPy, which is not part of the
    repository, is described to take them ("splits on commas").  An empty
    text has no field. *)
Definition spec_fields (data : string) : list string :=
  match data with
  | EmptyString => []
  | _ => Reference.split_on "," EmptyString data
  end.

(** Modelled from the spec: every field is parsed as a number ("parses
    each field as a floating-point number"), and decoding fails when one
    of them is not numeric.  [parse_field] is the parser of one number:
    the fields it rejects are the non-numeric ones. *)
Fixpoint spec_parse_fields (parse_field : string -> option num)
         (fs : list string) : option (list num) :=
  match fs with
  | [] => Some []
  | f :: fs' =>
      match parse_field f, spec_parse_fields parse_field fs' with
      | Some v, Some vs => Some (v :: vs)
      | _, _ => None
      end
  end.

(** Modelled from the spec: the decoding of NumPy's
    [np.fromstring(data, sep=',')], without the count, which [predict] and
    [train] check themselves by reshaping. *)
Definition spec_decode (parse_field : string -> option num) (data : string)
  : option (list num) :=
  spec_parse_fields parse_field (spec_fields data).

(** Some field of the payload is not numeric. *)
Definition non_numeric (parse_field : string -> option num) (data : string)
  : Prop :=
  exists field, In field (spec_fields data) /\ parse_field field = None.

End Codec.

(* ================================================================== *)
(** ** Facts about Python strings *)

Module PyStrFacts.

Lemma length_lower (s : string) : String.length (lower s) = String.length s.
Proof. induction s as [|c s IH]; simpl; congruence. Qed.

Lemma prefix_length (p s : string) :
  prefix p s = true -> String.length p <= String.length s.
Proof.
  revert s. induction p as [|c p IH]; intros s H; simpl; [lia|].
  destruct s as [|d s]; simpl in H; [discriminate|].
  destruct (ascii_dec c d); [|discriminate].
  apply IH in H. simpl. lia.
Qed.

Lemma str_in_length (sub s : string) :
  str_in sub s = true -> String.length sub <= String.length s.
Proof.
  induction s as [|c s IH]; cbn [str_in]; intros H.
  - rewrite orb_false_r in H. now apply prefix_length in H.
  - apply orb_true_iff in H. destruct H as [H|H].
    + now apply prefix_length in H.
    + apply IH in H. simpl. lia.
Qed.

Lemma prefix_app (p s : string) : prefix p (p ++ s) = true.
Proof.
  induction p as [|c p IH]; simpl.
  - now destruct s.
  - destruct (ascii_dec c c); [exact IH|congruence].
Qed.

Lemma prefix_split (p s : string) :
  prefix p s = true -> exists b, s = p ++ b.
Proof.
  revert s. induction p as [|c p IH]; intros s H.
  - now exists s.
  - destruct s as [|d s]; simpl in H; [discriminate|].
    destruct (ascii_dec c d) as [->|]; [|discriminate].
    destruct (IH _ H) as [b ->]. now exists b.
Qed.

(** [sub in s] holds exactly when [s] is some text, then [sub], then
    some text. *)
Lemma str_in_spec (sub s : string) :
  str_in sub s = true <-> exists a b, s = a ++ sub ++ b.
Proof.
  split.
  - induction s as [|c s IH]; cbn [str_in]; intros H.
    + rewrite orb_false_r in H. apply prefix_split in H.
      destruct H as [b Hb]. now exists EmptyString, b.
    + apply orb_true_iff in H. destruct H as [H|H].
      * apply prefix_split in H. destruct H as [b Hb]. now exists EmptyString, b.
      * destruct (IH H) as (a & b & ->). now exists (String c a), b.
  - intros (a & b & ->). induction a as [|c a IH].
    + change (EmptyString ++ sub ++ b)%string with (sub ++ b).
      destruct (sub ++ b) eqn:E; cbn [str_in];
        rewrite <- E, prefix_app; reflexivity.
    + change (String c a ++ sub ++ b) with (String c (a ++ sub ++ b)).
      cbn [str_in]. rewrite IH. apply orb_true_r.
Qed.

Lemma slice_from_app (a b : string) : slice_from (String.length a) (a ++ b) = b.
Proof. induction a as [|c a IH]; simpl; [now destruct b|exact IH]. Qed.

Lemma slice_from_length (n : nat) (s : string) :
  String.length (slice_from n s) = String.length s - n.
Proof.
  revert s. induction n as [|n IH]; intros s; simpl; [lia|].
  destruct s; simpl; [reflexivity|apply IH].
Qed.

(** A message whose lower-case form is [exit] has four characters, so
    neither tag fits in it. *)
Lemma exit_has_no_tag (sub message : string) :
  lower message = "exit" -> 4 < String.length sub -> str_in sub message = false.
Proof.
  intros Hexit Hlen.
  destruct (str_in sub message) eqn:E; [|reflexivity].
  apply str_in_length in E.
  pose proof (length_lower message) as L. rewrite Hexit in L. simpl in L. lia.
Qed.

Lemma tagged_not_exit (sub message : string) :
  str_in sub message = true -> 4 < String.length sub ->
  (lower message =? "exit") = false.
Proof.
  intros Hin Hlen. apply String.eqb_neq. intros Hexit.
  rewrite (exit_has_no_tag sub message Hexit Hlen) in Hin. discriminate.
Qed.

(** The characters that [lower] maps to a letter of [exit] are that
    letter and its capital. *)
Ltac by_character c :=
  destruct c as [[] [] [] [] [] [] [] []];
  vm_compute; intros H; try discriminate H; auto.

Lemma lower_char_e (c : ascii) :
  lower_char c = "e"%char -> c = "e"%char \/ c = "E"%char.
Proof. by_character c. Qed.

Lemma lower_char_x (c : ascii) :
  lower_char c = "x"%char -> c = "x"%char \/ c = "X"%char.
Proof. by_character c. Qed.

Lemma lower_char_i (c : ascii) :
  lower_char c = "i"%char -> c = "i"%char \/ c = "I"%char.
Proof. by_character c. Qed.

Lemma lower_char_t (c : ascii) :
  lower_char c = "t"%char -> c = "t"%char \/ c = "T"%char.
Proof. by_character c. Qed.

(** [message.lower() == "exit"] holds for the sixteen casings of [exit]
    and for nothing else. *)
Lemma exit_casings (message : string) :
  lower message = "exit" <->
  exists c1 c2 c3 c4,
    message = String c1 (String c2 (String c3 (String c4 EmptyString))) /\
    (c1 = "e"%char \/ c1 = "E"%char) /\
    (c2 = "x"%char \/ c2 = "X"%char) /\
    (c3 = "i"%char \/ c3 = "I"%char) /\
    (c4 = "t"%char \/ c4 = "T"%char).
Proof.
  split.
  - destruct message as [|c1 [|c2 [|c3 [|c4 [|c5 more]]]]];
      cbn [lower]; intros H; try discriminate H.
    injection H as H1 H2 H3 H4.
    exists c1, c2, c3, c4. repeat split;
      auto using lower_char_e, lower_char_x, lower_char_i, lower_char_t.
  - intros (c1 & c2 & c3 & c4 & -> & [-> | ->] & [-> | ->] & [-> | ->] & [-> | ->]);
      reflexivity.
Qed.

(** Dropping as many characters as the tag has strips the tag when the
    message starts with it, and never leaves the text after the tag when
    something precedes the tag. *)
Lemma slice_strips_leading_tag (tag b : string) :
  slice_from (String.length tag) (tag ++ b) = b.
Proof. apply slice_from_app. Qed.

Lemma length_append (a b : string) :
  String.length (a ++ b) = String.length a + String.length b.
Proof. induction a as [|c a IH]; simpl; congruence. Qed.

Lemma slice_misses_later_tag (tag a b : string) :
  a <> EmptyString -> slice_from (String.length tag) (a ++ tag ++ b) <> b.
Proof.
  intros Ha Heq.
  pose proof (slice_from_length (String.length tag) (a ++ tag ++ b)) as L.
  rewrite Heq, !length_append in L.
  destruct a as [|c a]; [congruence|].
  cbn [String.length] in L. lia.
Qed.

End PyStrFacts.
Import PyStrFacts.

(* ================================================================== *)
(** ** Computations and the network *)

Section Basics.

Context {F : Framework}.

Lemma after_nil {A} (c : Comp A) : after [] c = c.
Proof. now destruct c. Qed.

Lemma after_after {A} (e1 e2 : list event) (c : Comp A) :
  after e1 (after e2 c) = after (e1 ++ e2)%list c.
Proof. unfold after; simpl. now rewrite app_assoc. Qed.

Lemma bind_emit {A} (ev : event) (c : Comp A) : (emit ev ;; c) = after [ev] c.
Proof. now destruct c. Qed.

Lemma bind_print {A} (line : string) (c : Comp A) :
  (print line ;; c) = after [Printed line] c.
Proof. apply bind_emit. Qed.

Lemma bind_ret {A B} (a : A) (k : A -> Comp B) : (x <- ret a ;; k x) = k a.
Proof. unfold bind, ret. now destruct (k a). Qed.

Lemma bind_map {A B C} (c : Comp A) (f : A -> B) (k : B -> Comp C) :
  (x <- (y <- c ;; ret (f y)) ;; k x) = (y <- c ;; k (f y)).
Proof.
  destruct c as [evs [a|e]]; cbn; [|reflexivity].
  destruct (k (f a)). now rewrite app_nil_r.
Qed.

Lemma bind_after {A B} (evs : list event) (c : Comp A) (k : A -> Comp B) :
  (x <- after evs c ;; k x) = after evs (x <- c ;; k x).
Proof.
  destruct c as [evs' [a|e]]; unfold after, bind; simpl.
  - destruct (k a). simpl. now rewrite app_assoc.
  - reflexivity.
Qed.

Lemma send_open (rest : list peer_action) (text : string) :
  peer_open rest = true -> send rest text = emit (Sent text).
Proof. unfold send. now intros ->. Qed.

(** The layers never change during a session. *)
Lemma session_model_layers (model : Sequential) :
  session_model model ->
  layers model = [ {| units := 4; act := relu |};
                   {| units := 2; act := linear |} ].
Proof. induction 1; simpl; auto. Qed.

(** The last layer has two units: a prediction has two values. *)
Lemma keras_predict_pair (model : Sequential) (x : list num) :
  session_model model -> exists a b, keras_predict model x = [a; b].
Proof.
  intros H. unfold keras_predict. rewrite (session_model_layers model H).
  cbn [forward]. unfold dense_call at 1. cbn [units seq map].
  eauto.
Qed.

Lemma reshape_1_ok (n : nat) (a : list num) :
  List.length a = n -> reshape_1 n a = ret a.
Proof. unfold reshape_1. intros ->. now rewrite Nat.eqb_refl. Qed.

Lemma fromstring_ok (data : string) (a : list num) :
  np_fromstring data = Some a -> fromstring data = ret a.
Proof. unfold fromstring. now intros ->. Qed.

(** One iteration of the loop on a message that is not [exit]. *)
Lemma loop_step (model : Sequential) (message : string)
      (rest : list peer_action) :
  (lower message =? "exit") = false ->
  loop model (Deliver message :: rest) =
  after [Printed ("< " ++ message)]
    (mr <- dispatch model message ;;
     send rest (snd mr) ;;
     print ("> " ++ snd mr) ;;
     loop (fst mr) rest).
Proof.
  intros H. cbn [loop]. rewrite H, bind_print. f_equal.
  destruct (dispatch model message) as [evs [[m r]|e]]; reflexivity.
Qed.

Lemma loop_exit (model : Sequential) (message : string)
      (rest : list peer_action) :
  lower message = "exit" ->
  loop model (Deliver message :: rest) =
  after [Printed ("< " ++ message);
         Printed "Client sent 'exit' message. Closing connection."]
    (send rest "Goodbye!").
Proof.
  intros H. cbn [loop]. rewrite H. cbn [String.eqb Ascii.eqb Bool.eqb].
  now rewrite !bind_print, after_after.
Qed.

Lemma predict_silent (model : Sequential) (data : string) :
  fst (predict model data) = [].
Proof.
  unfold predict, fromstring, reshape_1.
  destruct (np_fromstring data) as [a|]; [|reflexivity].
  rewrite bind_ret. destruct (List.length a =? 7)%nat; reflexivity.
Qed.

Lemma dispatch_model_cases
      (model model' : Sequential) (message response : string)
      (evs : list event) :
  dispatch model message = (evs, Ok (model', response)) ->
  model' = model \/
  (str_in PREDICT_TAG message = false /\ str_in TRAIN_TAG message = true).
Proof.
  unfold dispatch. intros H.
  destruct (str_in PREDICT_TAG message).
  - left. destruct (predict model _) as [e [out|err]]; cbn in H;
      [now inversion H|discriminate].
  - destruct (str_in TRAIN_TAG message); [now right|].
    left. cbn in H. now inversion H.
Qed.

(** A request changes the model only when it is dispatched to
    training. *)
Lemma dispatch_changes_model
      (model model' : Sequential) (message response : string)
      (evs : list event) :
  dispatch model message = (evs, Ok (model', response)) ->
  model' <> model ->
  str_in PREDICT_TAG message = false /\ str_in TRAIN_TAG message = true.
Proof.
  intros H Hne.
  destruct (dispatch_model_cases _ _ _ _ _ H) as [E|Htrain];
    [contradiction|exact Htrain].
Qed.

(** The three ways a message that is not [exit] is dispatched. *)
Lemma loop_predict (model : Sequential) (message : string)
      (rest : list peer_action) :
  lower message <> "exit" ->
  str_in PREDICT_TAG message = true ->
  loop model (Deliver message :: rest) =
  after [Printed ("< " ++ message)]
    (out <- predict model (slice_from PREDICT_TAG_LEN message) ;;
     send rest ("predict:" ++ out) ;;
     print ("> " ++ "predict:" ++ out) ;;
     loop model rest).
Proof.
  intros Hexit Hp. rewrite loop_step by (now apply String.eqb_neq).
  unfold dispatch. rewrite Hp, bind_map. reflexivity.
Qed.

Lemma loop_train (model : Sequential) (message : string)
      (rest : list peer_action) :
  lower message <> "exit" ->
  str_in PREDICT_TAG message = false ->
  str_in TRAIN_TAG message = true ->
  loop model (Deliver message :: rest) =
  after [Printed ("< " ++ message)]
    (model' <- train model (slice_from TRAIN_TAG_LEN message) ;;
     send rest "Train done" ;;
     print ("> " ++ "Train done") ;;
     loop model' rest).
Proof.
  intros Hexit Hp Ht. rewrite loop_step by (now apply String.eqb_neq).
  unfold dispatch. rewrite Hp, Ht, bind_map. reflexivity.
Qed.

Lemma loop_echo (model : Sequential) (message : string)
      (rest : list peer_action) :
  lower message <> "exit" ->
  str_in PREDICT_TAG message = false ->
  str_in TRAIN_TAG message = false ->
  loop model (Deliver message :: rest) =
  after [Printed ("< " ++ message)]
    (send rest ("Processed message: '" ++ message ++ "'") ;;
     print ("> " ++ "Processed message: '" ++ message ++ "'") ;;
     loop model rest).
Proof.
  intros Hexit Hp Ht. rewrite loop_step by (now apply String.eqb_neq).
  unfold dispatch. rewrite Hp, Ht, bind_ret. reflexivity.
Qed.

Lemma loop_echo_open (model : Sequential) (message : string)
      (rest : list peer_action) :
  lower message <> "exit" ->
  str_in PREDICT_TAG message = false ->
  str_in TRAIN_TAG message = false ->
  peer_open rest = true ->
  loop model (Deliver message :: rest) =
  after [Printed ("< " ++ message);
         Sent ("Processed message: '" ++ message ++ "'");
         Printed ("> " ++ "Processed message: '" ++ message ++ "'")]
    (loop model rest).
Proof.
  intros Hexit Hp Ht Hopen. rewrite (loop_echo _ _ _ Hexit Hp Ht).
  rewrite (send_open _ _ Hopen), bind_emit, bind_print, !after_after.
  reflexivity.
Qed.

(** The only exception [predict] raises is [ValueError]. *)
Lemma predict_raises (model : Sequential) (data : string)
      (evs : list event) (e : exn) :
  predict model data = (evs, Raise e) -> e = ValueError.
Proof.
  unfold predict, fromstring, reshape_1.
  destruct (np_fromstring data) as [a|]; [|now inversion 1].
  rewrite bind_ret. destruct (List.length a =? 7)%nat; now inversion 1.
Qed.

Lemma bind_ok {A B} (evs : list event) (a : A) (k : A -> Comp B) :
  (x <- (evs, Ok a) ;; k x) = after evs (k a).
Proof. unfold bind, after. now destruct (k a). Qed.

Lemma peer_open_deliveries (served : list string) (rest : list peer_action) :
  peer_open rest = true ->
  peer_open (map Deliver served ++ rest)%list = true.
Proof. now destruct served. Qed.

(** The loop over a served part of a session, then whatever follows. *)
Lemma loop_serve (served : list string) :
  forall (model model' : Sequential) (evs : list event)
         (rest : list peer_action),
    serve model served = Some (evs, model') ->
    peer_open rest = true ->
    loop model (map Deliver served ++ rest)%list = after evs (loop model' rest).
Proof.
  induction served as [|message served IH];
    intros model model' evs rest Hserve Hopen.
  - inversion Hserve; subst. cbn [map app]. now rewrite after_nil.
  - cbn [serve] in Hserve.
    destruct (lower message =? "exit") eqn:Hexit; [discriminate|].
    destruct (dispatch model message) as [evs1 [[model1 response]|e]] eqn:Hd;
      [|discriminate].
    destruct (serve model1 served) as [[evs2 model2]|] eqn:Hs; [|discriminate].
    inversion Hserve; subst evs model2. clear Hserve.
    cbn [map app]. rewrite (loop_step _ _ _ Hexit), Hd, bind_ok.
    cbn [fst snd].
    rewrite (send_open _ _ (peer_open_deliveries served rest Hopen)).
    rewrite bind_emit, bind_print, (IH _ _ _ _ Hs Hopen), !after_after.
    f_equal. rewrite <- !app_assoc. reflexivity.
Qed.

Lemma dispatch_session_model
      (model model' : Sequential) (message response : string)
      (evs : list event) :
  dispatch model message = (evs, Ok (model', response)) ->
  session_model model -> session_model model'.
Proof.
  unfold dispatch. intros H Hm.
  destruct (str_in PREDICT_TAG message).
  - destruct (predict model _) as [e [out|err]]; cbn in H;
      [now inversion H; subst|discriminate].
  - destruct (str_in TRAIN_TAG message); [|cbn in H; now inversion H; subst].
    revert H. unfold train, fromstring, reshape_1, keras_fit.
    destruct (np_fromstring _) as [v|]; [|discriminate].
    rewrite bind_ret.
    destruct (_ =? 7)%nat; [|discriminate]. rewrite bind_ret.
    destruct (_ =? 2)%nat; [|discriminate]. rewrite bind_ret.
    cbn. intros H. inversion H; subst. now constructor.
Qed.

(** Every model of a session is a [session_model]. *)
Lemma serve_session_model (served : list string) :
  forall (model model' : Sequential) (evs : list event),
    serve model served = Some (evs, model') ->
    session_model model -> session_model model'.
Proof.
  induction served as [|message served IH]; intros model model' evs Hserve Hm.
  - now inversion Hserve; subst.
  - cbn [serve] in Hserve.
    destruct (lower message =? "exit"); [discriminate|].
    destruct (dispatch model message) as [evs1 [[model1 response]|e]] eqn:Hd;
      [|discriminate].
    destruct (serve model1 served) as [[evs2 model2]|] eqn:Hs; [|discriminate].
    inversion Hserve; subst. eapply IH; [exact Hs|].
    eapply dispatch_session_model; eauto.
Qed.

(** Without a training request in it, a served part of a session ends
    with the model it started with. *)
Lemma serve_keeps_model (served : list string) :
  forall (model model' : Sequential) (evs : list event),
    serve model served = Some (evs, model') ->
    forallb no_training served = true ->
    model' = model.
Proof.
  induction served as [|message served IH]; intros model model' evs Hserve Hno.
  - now inversion Hserve.
  - cbn [serve] in Hserve. cbn [forallb] in Hno.
    apply andb_true_iff in Hno. destruct Hno as [Hmsg Hno].
    destruct (lower message =? "exit"); [discriminate|].
    destruct (dispatch model message) as [evs1 [[model1 response]|e]] eqn:Hd;
      [|discriminate].
    destruct (serve model1 served) as [[evs2 model2]|] eqn:Hs; [|discriminate].
    inversion Hserve; subst evs model2.
    assert (model1 = model) as ->.
    { destruct (dispatch_model_cases model model1 message response evs1 Hd)
        as [E|[Hp Ht]]; [exact E|].
      unfold no_training in Hmsg. rewrite Hp, Ht in Hmsg. discriminate. }
    now apply (IH _ _ _ Hs).
Qed.

(** When the message starts with the tag, what [handler] decodes is the
    payload in the words of the specification. *)
Lemma spec_payload_tag_first (tag b : string) :
  spec_payload tag (tag ++ b) = Some (slice_from (String.length tag) (tag ++ b))
  /\ slice_from (String.length tag) (tag ++ b) = b.
Proof.
  split; [|apply slice_from_app].
  pose proof (prefix_app tag b) as H.
  destruct (tag ++ b)%string; cbn [spec_payload]; now rewrite H.
Qed.

(** The only exception a dispatched request raises is [ValueError]. *)
Lemma dispatch_raises (model : Sequential) (message : string)
      (evs : list event) (e : exn) :
  dispatch model message = (evs, Raise e) -> e = ValueError.
Proof.
  unfold dispatch.
  destruct (str_in PREDICT_TAG message).
  - destruct (predict _ _) as [evs' [out|e']] eqn:Hp; cbn; [discriminate|].
    intros H; inversion H; subst. now apply predict_raises in Hp.
  - destruct (str_in TRAIN_TAG message); [|discriminate].
    unfold train, fromstring, reshape_1, keras_fit.
    destruct (np_fromstring _) as [v|]; [|now inversion 1].
    rewrite bind_ret.
    destruct (_ =? 7)%nat; [|now inversion 1]. rewrite bind_ret.
    destruct (_ =? 2)%nat; [|now inversion 1]. rewrite bind_ret.
    cbn. discriminate.
Qed.

(** [handler] in terms of what its loop does: the [except] clause turns
    [ConnectionClosed] into a log line, the [finally] clause comes last. *)
Lemma handler_by_loop (ws : websocket) (init : Variables) :
  handler ws init =
  match loop (create_and_compile_model init) (script ws) with
  | (evs, Ok _) =>
      ((Printed ("Client connected from " ++ remote_address ws) :: evs
          ++ [Printed ("Client from " ++ remote_address ws ++ " disconnected.")])%list,
       Ok tt)
  | (evs, Raise ConnectionClosed) =>
      ((Printed ("Client connected from " ++ remote_address ws) :: evs
          ++ [Printed ("Connection closed unexpectedly: " ++ close_text ws);
              Printed ("Client from " ++ remote_address ws ++ " disconnected.")])%list,
       Ok tt)
  | (evs, Raise ValueError) =>
      ((Printed ("Client connected from " ++ remote_address ws) :: evs
          ++ [Printed ("Client from " ++ remote_address ws ++ " disconnected.")])%list,
       Raise ValueError)
  end.
Proof.
  unfold handler. rewrite bind_print.
  destruct (loop _ _) as [evs [[]|[|]]]; cbn; try reflexivity.
  now rewrite <- app_assoc.
Qed.

End Basics.

(* ================================================================== *)
(** ** The message protocol *)

Section Protocol.

Context {F : Framework}.



(** C5.  Whatever the session has served before, a message whose
    lower-case form is [exit] is answered with [Goodbye!]; the loop ends
    there, the messages after it are not read, and [handler] returns
    after its disconnection line.  Such a message contains neither tag, and
    nothing is dispatched for it. *)
Theorem exit_says_goodbye
        (ws : websocket) (init : Variables) (served : list string)
        (message : string) (rest : list peer_action)
        (evs : list event) (model : Sequential) :
  script ws = (map Deliver served ++ Deliver message :: rest)%list ->
  serve (create_and_compile_model init) served = Some (evs, model) ->
  lower message = "exit" ->
  peer_open rest = true ->
  handler ws init =
  ((Printed ("Client connected from " ++ remote_address ws) :: evs
      ++ [Printed ("< " ++ message);
          Printed "Client sent 'exit' message. Closing connection.";
          Sent "Goodbye!";
          Printed ("Client from " ++ remote_address ws ++ " disconnected.")])%list,
   Ok tt)
  /\ str_in PREDICT_TAG message = false
  /\ str_in TRAIN_TAG message = false.
Proof.
  intros Hscript Hserve Hexit Hopen. split; [|split].
  - rewrite handler_by_loop, Hscript.
    rewrite (loop_serve served _ _ _ (Deliver message :: rest) Hserve eq_refl).
    rewrite (loop_exit _ _ _ Hexit), (send_open _ _ Hopen).
    cbn. rewrite <- app_assoc. reflexivity.
  - apply exit_has_no_tag; [exact Hexit|simpl; lia].
  - apply exit_has_no_tag; [exact Hexit|simpl; lia].
Qed.

(** C6.  A message without either tag that is not [exit] in any casing
    is answered with [Processed message: '<message>'], the message
    copied as it came. *)
Theorem other_message_echoed
        (model : Sequential) (message : string) (rest : list peer_action) :
  str_in PREDICT_TAG message = false ->
  str_in TRAIN_TAG message = false ->
  lower message <> "exit" ->
  peer_open rest = true ->
  loop model (Deliver message :: rest) =
  after [Printed ("< " ++ message);
         Sent ("Processed message: '" ++ message ++ "'");
         Printed ("> " ++ "Processed message: '" ++ message ++ "'")]
    (loop model rest).
Proof.
  intros Hp Ht Hexit Hopen. now apply loop_echo_open.
Qed.

(** C7.  The order of the checks on a message: [exit] first, then the
    [predict:] tag, then the [train:] tag, then the echo.  A message with
    the [predict:] tag is a prediction request even when it also contains
    [train:]: decoding and predicting perform no [model.fit], and the loop
    goes on with the model it had. *)
Theorem dispatch_priority
        (model : Sequential) (message : string) (rest : list peer_action) :
  (lower message = "exit" ->
   loop model (Deliver message :: rest) =
   after [Printed ("< " ++ message);
          Printed "Client sent 'exit' message. Closing connection."]
     (send rest "Goodbye!"))
  /\
  (lower message <> "exit" ->
   str_in PREDICT_TAG message = true ->
   fst (predict model (slice_from PREDICT_TAG_LEN message)) = [] /\
   loop model (Deliver message :: rest) =
   after [Printed ("< " ++ message)]
     (out <- predict model (slice_from PREDICT_TAG_LEN message) ;;
      send rest ("predict:" ++ out) ;;
      print ("> " ++ "predict:" ++ out) ;;
      loop model rest))
  /\
  (lower message <> "exit" ->
   str_in PREDICT_TAG message = false ->
   str_in TRAIN_TAG message = true ->
   loop model (Deliver message :: rest) =
   after [Printed ("< " ++ message)]
     (model' <- train model (slice_from TRAIN_TAG_LEN message) ;;
      send rest "Train done" ;;
      print ("> " ++ "Train done") ;;
      loop model' rest))
  /\
  (lower message <> "exit" ->
   str_in PREDICT_TAG message = false ->
   str_in TRAIN_TAG message = false ->
   loop model (Deliver message :: rest) =
   after [Printed ("< " ++ message)]
     (send rest ("Processed message: '" ++ message ++ "'") ;;
      print ("> " ++ "Processed message: '" ++ message ++ "'") ;;
      loop model rest)).
Proof.
  split; [apply loop_exit|].
  split; [|split].
  - intros Hexit Hp. split; [apply predict_silent|now apply loop_predict].
  - apply loop_train.
  - apply loop_echo.
Qed.

(** C8.  A prediction request leaves the model as it was.  Take two
    identical prediction requests with, between them, any served messages
    none of which is a training request: either the first request fails
    (and ends the session), or both get the same reply and the loop goes
    on with the model it had.  Any request that changes the model is one
    dispatched to training. *)
Theorem repeated_predict_same_reply
        (model model' : Sequential) (message : string) (between : list string)
        (evs : list event) (rest : list peer_action) :
  str_in PREDICT_TAG message = true ->
  forallb no_training between = true ->
  serve model between = Some (evs, model') ->
  peer_open rest = true ->
  model' = model
  /\
  ((exists response,
       loop model
         (Deliver message :: map Deliver between ++ Deliver message :: rest)%list =
       after ([Printed ("< " ++ message);
               Sent response;
               Printed ("> " ++ response)]
                ++ evs
                ++ [Printed ("< " ++ message);
                    Sent response;
                    Printed ("> " ++ response)])%list
         (loop model rest))
   \/
   loop model
     (Deliver message :: map Deliver between ++ Deliver message :: rest)%list =
   ([Printed ("< " ++ message)], Raise ValueError))
  /\
  (forall (other : string) (evs' : list event) (changed : Sequential)
          (response : string),
      dispatch model other = (evs', Ok (changed, response)) ->
      changed <> model ->
      str_in PREDICT_TAG other = false /\ str_in TRAIN_TAG other = true).
Proof.
  intros Htag Hno Hserve Hopen.
  assert (Hsame : model' = model) by exact (serve_keeps_model _ _ _ _ Hserve Hno).
  subst model'.
  split; [reflexivity|].
  split; [|intros other evs' changed response; apply dispatch_changes_model].
  assert (Hexit : lower message <> "exit").
  { apply String.eqb_neq, (tagged_not_exit PREDICT_TAG); [exact Htag|simpl; lia]. }
  rewrite (loop_predict model message _ Hexit Htag).
  rewrite (loop_serve between _ _ _ (Deliver message :: rest) Hserve eq_refl).
  rewrite (loop_predict model message _ Hexit Htag).
  pose proof (predict_silent model (slice_from PREDICT_TAG_LEN message))
    as Hsilent.
  destruct (predict model (slice_from PREDICT_TAG_LEN message))
    as [evs0 [out|e]] eqn:Hpredict; cbn [fst] in Hsilent; subst evs0.
  - left. exists ("predict:" ++ out).
    change (([] : list event), Ok out) with (ret out). rewrite !bind_ret.
    rewrite (send_open rest _ Hopen).
    rewrite (send_open (map Deliver between ++ Deliver message :: rest)%list _
               (peer_open_deliveries between (Deliver message :: rest) eq_refl)).
    rewrite !bind_emit, !bind_print, !after_after.
    f_equal. rewrite <- !app_assoc. reflexivity.
  - right. apply predict_raises in Hpredict. subst e. reflexivity.
Qed.

(** C10.  The tags are matched with their exact lower-case spelling: a
    message that contains a differently cased spelling of a tag (such as
    [PREDICT:] or [Train:]) and neither exact tag is echoed. *)
Theorem tags_are_case_sensitive
        (model : Sequential) (message variant : string)
        (rest : list peer_action) :
  lower variant = PREDICT_TAG \/ lower variant = TRAIN_TAG ->
  str_in variant message = true ->
  str_in PREDICT_TAG message = false ->
  str_in TRAIN_TAG message = false ->
  peer_open rest = true ->
  loop model (Deliver message :: rest) =
  after [Printed ("< " ++ message);
         Sent ("Processed message: '" ++ message ++ "'");
         Printed ("> " ++ "Processed message: '" ++ message ++ "'")]
    (loop model rest).
Proof.
  intros Hvariant Hin Hp Ht Hopen.
  apply loop_echo_open; try assumption.
  apply String.eqb_neq, (tagged_not_exit variant); [exact Hin|].
  rewrite <- (length_lower variant).
  destruct Hvariant as [-> | ->]; simpl; lia.
Qed.

(** In terms of what [np.fromstring] returns: decoding fails exactly
    when the call raises or the number of values does not fit, exactly
    seven for a prediction and at least nine for training. *)
Lemma decode_failure_by_fromstring (model : Sequential) (data : string) :
  (snd (predict model data) = Raise ValueError <->
   np_fromstring data = None \/
   exists v, np_fromstring data = Some v /\ List.length v <> 7)
  /\
  (snd (train model data) = Raise ValueError <->
   np_fromstring data = None \/
   exists v, np_fromstring data = Some v /\ List.length v < 9)
  /\
  (forall v, np_fromstring data = Some v -> 9 <= List.length v ->
             train model data =
             keras_fit model (firstn 7 v) (firstn 2 (skipn 7 v)) 1).
Proof.
  split; [|split].
  - unfold predict, fromstring.
    destruct (np_fromstring data) as [v|]; [|cbn; split; auto].
    rewrite bind_ret. unfold reshape_1.
    destruct (Nat.eqb_spec (List.length v) 7) as [E|E]; cbn.
    + split; [discriminate|]. intros [H|(v' & H & Hv')]; [discriminate|].
      inversion H; subst v'. contradiction.
    + split; [|reflexivity]. intros _. right. now exists v.
  - unfold train, fromstring.
    destruct (np_fromstring data) as [v|]; [|cbn; split; auto].
    rewrite bind_ret.
    change (slice 0 7 v) with (firstn 7 v).
    change (slice 7 9 v) with (firstn 2 (skipn 7 v)).
    unfold reshape_1. rewrite !length_firstn, length_skipn.
    destruct (Nat.ltb_spec (List.length v) 9) as [L|L].
    + split; [intros _; right; now exists v|]. intros _.
      destruct (Nat.eqb_spec (Nat.min 7 (List.length v)) 7) as [E|E];
        [|reflexivity].
      rewrite bind_ret.
      destruct (Nat.eqb_spec (Nat.min 2 (List.length v - 7)) 2) as [E2|E2];
        [lia|reflexivity].
    + replace (Nat.min 7 (List.length v)) with 7 by lia.
      replace (Nat.min 2 (List.length v - 7)) with 2 by lia.
      cbn [Nat.eqb]. rewrite !bind_ret. cbn.
      split; [discriminate|]. intros [H|(v' & H & Hv')]; [discriminate|].
      inversion H; subst v'. lia.
  - intros v Hv Hlen. unfold train. rewrite (fromstring_ok _ _ Hv), bind_ret.
    change (slice 0 7 v) with (firstn 7 v).
    change (slice 7 9 v) with (firstn 2 (skipn 7 v)).
    rewrite reshape_1_ok by (rewrite length_firstn; lia). rewrite bind_ret.
    rewrite reshape_1_ok by (rewrite length_firstn, length_skipn; lia).
    now rewrite bind_ret.
Qed.

Lemma spec_parse_fields_none (parse_field : string -> option num)
      (fs : list string) :
  spec_parse_fields parse_field fs = None <->
  exists field, In field fs /\ parse_field field = None.
Proof.
  induction fs as [|f fs IH]; cbn [spec_parse_fields].
  - split; [discriminate|]. now intros (field & [] & _).
  - destruct (parse_field f) as [v|] eqn:Hf.
    + destruct (spec_parse_fields parse_field fs) as [vs|].
      * split; [discriminate|]. intros (field & [<-|Hin] & Hnone).
        -- congruence.
        -- assert (H : Some vs = None) by (apply IH; now exists field).
           discriminate H.
      * split; [|reflexivity]. intros _.
        destruct (proj1 IH eq_refl) as (field & Hin & Hnone).
        exists field. split; [now right|exact Hnone].
    + split; [|reflexivity]. intros _. exists f. split; [now left|exact Hf].
Qed.

Lemma spec_parse_fields_length (parse_field : string -> option num)
      (fs : list string) (v : list num) :
  spec_parse_fields parse_field fs = Some v -> List.length v = List.length fs.
Proof.
  revert v. induction fs as [|f fs IH]; intros v; cbn [spec_parse_fields].
  - now inversion 1.
  - destruct (parse_field f) as [x|]; [|discriminate].
    destruct (spec_parse_fields parse_field fs) as [vs|]; [|discriminate].
    inversion 1; subst. cbn. now rewrite (IH vs eq_refl).
Qed.

(** C4 (amended).  With [np.fromstring] decoding as the specification
    describes it (the payload split on commas, every field parsed as a
    number), decoding fails with [ValueError] exactly when some
    comma-separated field is not numeric or the number of fields does not
    fit: exactly seven for a prediction, at least nine for training.
    Fields after the ninth are ignored by training. *)
Theorem decode_failure_conditions
        (parse_field : string -> option num)
        (model : Sequential) (data : string) :
  (forall text, np_fromstring text = spec_decode parse_field text) ->
  (snd (predict model data) = Raise ValueError <->
   non_numeric parse_field data \/ List.length (spec_fields data) <> 7)
  /\
  (snd (train model data) = Raise ValueError <->
   non_numeric parse_field data \/ List.length (spec_fields data) < 9)
  /\
  (forall v, np_fromstring data = Some v -> 9 <= List.length v ->
             train model data =
             keras_fit model (firstn 7 v) (firstn 2 (skipn 7 v)) 1).
Proof.
  intros Hstrict.
  destruct (decode_failure_by_fromstring model data) as (Hp & Ht & Hfit).
  split; [|split; [|exact Hfit]].
  - rewrite Hp, (Hstrict data). unfold spec_decode, non_numeric.
    rewrite spec_parse_fields_none. split.
    + intros [H|(v & Hv & Hlen)]; [now left|right].
      now rewrite <- (spec_parse_fields_length _ _ _ Hv).
    + intros [H|Hlen]; [now left|].
      destruct (spec_parse_fields parse_field (spec_fields data)) as [v|] eqn:Hv.
      * right. exists v. split; [reflexivity|].
        now rewrite (spec_parse_fields_length _ _ _ Hv).
      * left. now apply spec_parse_fields_none.
  - rewrite Ht, (Hstrict data). unfold spec_decode, non_numeric.
    rewrite spec_parse_fields_none. split.
    + intros [H|(v & Hv & Hlen)]; [now left|right].
      now rewrite <- (spec_parse_fields_length _ _ _ Hv).
    + intros [H|Hlen]; [now left|].
      destruct (spec_parse_fields parse_field (spec_fields data)) as [v|] eqn:Hv.
      * right. exists v. split; [reflexivity|].
        now rewrite (spec_parse_fields_length _ _ _ Hv).
      * left. now apply spec_parse_fields_none.
Qed.

(** C9.  [handler] catches [ConnectionClosed] only: it logs it and
    returns.  Any other exception of the loop, that is the [ValueError] of
    a request that fails in decoding, predicting or training, leaves
    [handler] uncaught: the request gets no reply and the messages after it
    are not read.  However the loop ends, the last thing [handler] does is
    print the disconnection line. *)
Theorem handler_cleanup (ws : websocket) (init : Variables) :
  let session := loop (create_and_compile_model init) (script ws) in
  let hello := Printed ("Client connected from " ++ remote_address ws) in
  let bye :=
    Printed ("Client from " ++ remote_address ws ++ " disconnected.") in
  handler ws init =
  match snd session with
  | Ok _ =>
      ((hello :: fst session ++ [bye])%list, Ok tt)
  | Raise ConnectionClosed =>
      ((hello :: fst session
          ++ [Printed ("Connection closed unexpectedly: " ++ close_text ws);
              bye])%list,
       Ok tt)
  | Raise ValueError =>
      ((hello :: fst session ++ [bye])%list, Raise ValueError)
  end
  /\
  (forall (served : list string) (message : string) (rest : list peer_action)
          (evs : list event) (model : Sequential)
          (evs' : list event) (e : exn),
      script ws = (map Deliver served ++ Deliver message :: rest)%list ->
      serve (create_and_compile_model init) served = Some (evs, model) ->
      lower message <> "exit" ->
      dispatch model message = (evs', Raise e) ->
      e = ValueError /\
      handler ws init =
      ((hello :: evs ++ Printed ("< " ++ message) :: evs' ++ [bye])%list,
       Raise ValueError)).
Proof.
  intros session hello bye. split.
  - rewrite handler_by_loop. fold session hello bye.
    destruct session as [evs [[]|[|]]]; reflexivity.
  - intros served message rest evs model evs' e Hscript Hserve Hexit Hfault.
    pose proof (dispatch_raises _ _ _ _ Hfault) as He. subst e.
    split; [reflexivity|].
    rewrite handler_by_loop, Hscript.
    rewrite (loop_serve served _ _ _ (Deliver message :: rest) Hserve eq_refl).
    rewrite loop_step by (now apply String.eqb_neq).
    rewrite Hfault. cbn. fold hello bye.
    rewrite <- !app_assoc. reflexivity.
Qed.

End Protocol.

(* ================================================================== *)
(** ** Sessions against the reference framework *)

Import Reference.

(** C3.  The handler does not strip the tag where it stands: it drops the
    first [PREDICT_TAG_LEN] (or [TRAIN_TAG_LEN]) characters of the message.
    With one character before the tag the text after the tag is
    [1,2,3,4,5,6,7], but what is decoded is [:1,2,3,4,5,6,7]; the
    request that is answered when the tag comes first ends the session
    with a [ValueError]. *)
Theorem tag_after_leading_text :
  str_in PREDICT_TAG "xpredict:1,2,3,4,5,6,7" = true /\
  spec_payload PREDICT_TAG "xpredict:1,2,3,4,5,6,7" = Some "1,2,3,4,5,6,7" /\
  slice_from PREDICT_TAG_LEN "xpredict:1,2,3,4,5,6,7" = ":1,2,3,4,5,6,7" /\
  run [Deliver "predict:1,2,3,4,5,6,7"] =
  ([hello;
    Printed "< predict:1,2,3,4,5,6,7";
    Sent "predict:112,112";
    Printed "> predict:112,112";
    closed; bye],
   Ok tt) /\
  run [Deliver "xpredict:1,2,3,4,5,6,7"] =
  ([hello; Printed "< xpredict:1,2,3,4,5,6,7"; bye], Raise ValueError) /\
  str_in TRAIN_TAG "please train:1,2,3,4,5,6,7,8,9" = true /\
  spec_payload TRAIN_TAG "please train:1,2,3,4,5,6,7,8,9"
  = Some "1,2,3,4,5,6,7,8,9" /\
  slice_from TRAIN_TAG_LEN "please train:1,2,3,4,5,6,7,8,9"
  = " train:1,2,3,4,5,6,7,8,9" /\
  run [Deliver "please train:1,2,3,4,5,6,7,8,9"] =
  ([hello; Printed "< please train:1,2,3,4,5,6,7,8,9"; bye],
   Raise ValueError).
Proof. repeat split; vm_compute; reflexivity. Qed.

(** C4, as stated, fails: a training payload of ten values is not
    rejected.  The first nine are used and the request is acknowledged. *)
Lemma train_accepts_ten_values :
  np_fromstring "1,2,3,4,5,6,7,8,9,10"
  = Some [1; 2; 3; 4; 5; 6; 7; 8; 9; 10]%Z /\
  run [Deliver "train:1,2,3,4,5,6,7,8,9,10"] =
  ([hello;
    Printed "< train:1,2,3,4,5,6,7,8,9,10";
    Fitted [1; 2; 3; 4; 5; 6; 7]%Z [8; 9]%Z 1;
    Sent "Train done";
    Printed "> Train done";
    closed; bye],
   Ok tt).
Proof. split; vm_compute; reflexivity. Qed.

(** *** The theorems at concrete messages *)



Lemma exit_says_goodbye_witness :
  handler (ws [Deliver "train:1,2,3,4,5,6,7,8,9"; Deliver "hello";
               Deliver "ExIt"; Deliver "hello"]) ones =
  ((Printed ("Client connected from " ++ "('127.0.0.1', 50000)")
      :: [Printed "< train:1,2,3,4,5,6,7,8,9";
          Fitted [1; 2; 3; 4; 5; 6; 7]%Z [8; 9]%Z 1;
          Sent "Train done";
          Printed "> Train done";
          Printed "< hello";
          Sent "Processed message: 'hello'";
          Printed "> Processed message: 'hello'"]
      ++ [Printed ("< " ++ "ExIt");
          Printed "Client sent 'exit' message. Closing connection.";
          Sent "Goodbye!";
          Printed ("Client from " ++ "('127.0.0.1', 50000)" ++ " disconnected.")])%list,
   Ok tt)
  /\ str_in PREDICT_TAG "ExIt" = false
  /\ str_in TRAIN_TAG "ExIt" = false.
Proof.
  apply (@exit_says_goodbye ref_framework
           (ws [Deliver "train:1,2,3,4,5,6,7,8,9"; Deliver "hello";
                Deliver "ExIt"; Deliver "hello"])
           ones
           ["train:1,2,3,4,5,6,7,8,9"; "hello"] "ExIt" [Deliver "hello"]
           _
           (set_variables model0
              (fit_epochs (variables model0)
                 [1; 2; 3; 4; 5; 6; 7]%Z [8; 9]%Z 1)));
    reflexivity.
Defined.

Lemma other_message_echoed_witness :
  loop model0 [Deliver "it's <b>50%</b> & more"] =
  after [Printed ("< " ++ "it's <b>50%</b> & more");
         Sent ("Processed message: '" ++ "it's <b>50%</b> & more" ++ "'");
         Printed ("> " ++ "Processed message: '" ++ "it's <b>50%</b> & more" ++ "'")]
    (loop model0 []).
Proof.
  apply (@other_message_echoed ref_framework model0
           "it's <b>50%</b> & more" []);
    [reflexivity | reflexivity | discriminate | reflexivity].
Defined.

Lemma dispatch_priority_witness :
  fst (predict model0 (slice_from PREDICT_TAG_LEN "predict:train:1")) = [] /\
  loop model0 [Deliver "predict:train:1"] =
  after [Printed ("< " ++ "predict:train:1")]
    (out <- predict model0 (slice_from PREDICT_TAG_LEN "predict:train:1") ;;
     send [] ("predict:" ++ out) ;;
     print ("> " ++ "predict:" ++ out) ;;
     loop model0 []).
Proof.
  destruct (@dispatch_priority ref_framework model0 "predict:train:1" [])
    as (_ & Hpredict & _).
  apply Hpredict; [discriminate | reflexivity].
Defined.

Lemma repeated_predict_same_reply_witness :
  exists response,
    loop model0
      [Deliver "predict:1,2,3,4,5,6,7"; Deliver "hello";
       Deliver "predict:1,2,3,4,5,6,7"] =
    after ([Printed ("< " ++ "predict:1,2,3,4,5,6,7");
            Sent response;
            Printed ("> " ++ response)]
             ++ [Printed "< hello";
                 Sent "Processed message: 'hello'";
                 Printed "> Processed message: 'hello'"]
             ++ [Printed ("< " ++ "predict:1,2,3,4,5,6,7");
                 Sent response;
                 Printed ("> " ++ response)])%list
      (loop model0 []).
Proof.
  destruct (@repeated_predict_same_reply ref_framework model0 model0
              "predict:1,2,3,4,5,6,7" ["hello"]
              [Printed "< hello";
               Sent "Processed message: 'hello'";
               Printed "> Processed message: 'hello'"]
              [] eq_refl eq_refl eq_refl eq_refl)
    as (_ & [Hsame | Hfail] & _).
  - exact Hsame.
  - discriminate Hfail.
Defined.

Lemma tags_are_case_sensitive_witness :
  loop model0 [Deliver "PREDICT:1,2,3,4,5,6,7"] =
  after [Printed ("< " ++ "PREDICT:1,2,3,4,5,6,7");
         Sent ("Processed message: '" ++ "PREDICT:1,2,3,4,5,6,7" ++ "'");
         Printed ("> " ++ "Processed message: '" ++ "PREDICT:1,2,3,4,5,6,7" ++ "'")]
    (loop model0 []).
Proof.
  apply (@tags_are_case_sensitive ref_framework model0
           "PREDICT:1,2,3,4,5,6,7" "PREDICT:" []);
    [left; reflexivity | reflexivity | reflexivity | reflexivity | reflexivity].
Defined.

(** The decoder of the reference framework is the decoder of the
    specification, with the integers as the numeric fields. *)
Lemma reference_decoder_is_spec (text : string) :
  np_fromstring text = spec_decode parse_int text.
Proof.
  change (parse_all (spec_fields text)
          = spec_parse_fields parse_int (spec_fields text)).
  induction (spec_fields text) as [|f fs IH]; [reflexivity|].
  cbn [parse_all spec_parse_fields]. now rewrite IH.
Qed.

Lemma decode_failure_conditions_witness :
  snd (predict model0 "1,2,x,4,5,6,7") = Raise ValueError
  /\ snd (train model0 "1,2,3,4,5,6,7,8") = Raise ValueError
  /\ train model0 "1,2,3,4,5,6,7,8,9,10" =
     keras_fit model0 [1; 2; 3; 4; 5; 6; 7]%Z [8; 9]%Z 1.
Proof.
  split; [|split].
  - apply (@decode_failure_conditions ref_framework parse_int model0
             "1,2,x,4,5,6,7" reference_decoder_is_spec).
    left. exists "x". split; [simpl; auto|reflexivity].
  - apply (@decode_failure_conditions ref_framework parse_int model0
             "1,2,3,4,5,6,7,8" reference_decoder_is_spec).
    right. simpl. lia.
  - destruct (@decode_failure_conditions ref_framework parse_int model0
                "1,2,3,4,5,6,7,8,9,10" reference_decoder_is_spec)
      as (_ & _ & Hfit).
    apply (Hfit [1; 2; 3; 4; 5; 6; 7; 8; 9; 10]%Z); [reflexivity | simpl; lia].
Defined.

Lemma handler_cleanup_witness :
  ValueError = ValueError /\
  handler (ws [Deliver "hello"; Deliver "predict:1,2"; Deliver "hello"]) ones =
  ((hello
      :: [Printed "< hello";
          Sent "Processed message: 'hello'";
          Printed "> Processed message: 'hello'"]
      ++ Printed ("< " ++ "predict:1,2") :: [] ++ [bye])%list,
   Raise ValueError).
Proof.
  destruct (@handler_cleanup ref_framework
              (ws [Deliver "hello"; Deliver "predict:1,2"; Deliver "hello"])
              ones)
    as [_ Hfault].
  apply (Hfault ["hello"] "predict:1,2" [Deliver "hello"] _ model0 [] ValueError);
    [reflexivity | reflexivity | discriminate | reflexivity].
Defined.

(* ================================================================== *)
(** ** Whole sessions *)

Section Sessions.

Context {F : Framework}.

(** Everything [dispatch] can do with a message. *)
Lemma dispatch_outcomes (model : Sequential) (message : string) :
  (str_in PREDICT_TAG message = true /\
   dispatch model message = ([], Raise ValueError))
  \/
  (str_in PREDICT_TAG message = true /\
   exists v,
     np_fromstring (slice_from PREDICT_TAG_LEN message) = Some v /\
     List.length v = 7 /\
     dispatch model message =
     ([], Ok (model, "predict:" ++ join "," (map str (keras_predict model v)))))
  \/
  (str_in PREDICT_TAG message = false /\ str_in TRAIN_TAG message = true /\
   dispatch model message = ([], Raise ValueError))
  \/
  (str_in PREDICT_TAG message = false /\ str_in TRAIN_TAG message = true /\
   exists x y,
     List.length x = 7 /\ List.length y = 2 /\
     dispatch model message =
     ([Fitted x y 1],
      Ok (set_variables model (fit_epochs (variables model) x y 1),
          "Train done")))
  \/
  (str_in PREDICT_TAG message = false /\ str_in TRAIN_TAG message = false /\
   dispatch model message =
   ([], Ok (model, "Processed message: '" ++ message ++ "'"))).
Proof.
  unfold dispatch.
  destruct (str_in PREDICT_TAG message) eqn:Hp.
  - unfold predict, fromstring, reshape_1.
    destruct (np_fromstring _) as [v|] eqn:Hv; [|left; now split].
    rewrite bind_ret.
    destruct (Nat.eqb_spec (List.length v) 7) as [E|E]; [|left; now split].
    right; left. split; [reflexivity|]. exists v. now rewrite !bind_ret.
  - destruct (str_in TRAIN_TAG message) eqn:Ht.
    + unfold train, fromstring, reshape_1, keras_fit.
      destruct (np_fromstring _) as [v|] eqn:Hv;
        [|right; right; left; now repeat split].
      rewrite bind_ret.
      destruct (Nat.eqb_spec (List.length (slice 0 7 v)) 7) as [E|E];
        [|right; right; left; now repeat split].
      rewrite bind_ret.
      destruct (Nat.eqb_spec (List.length (slice 7 9 v)) 2) as [E2|E2];
        [|right; right; left; now repeat split].
      rewrite bind_ret.
      right; right; right; left. repeat split.
      exists (slice 0 7 v), (slice 7 9 v). now repeat split.
    + right; right; right; right. now repeat split.
Qed.

(** A property [Q] of events holds throughout the loop when the prints
    and [Goodbye!] have it and [dispatch] keeps it; [I] is what the
    models satisfy, [R] what the messages satisfy. *)
Lemma loop_Forall (Q : event -> Prop) (R : string -> Prop)
      (I : Sequential -> Prop) :
  (forall line, Q (Printed line)) ->
  Q (Sent "Goodbye!") ->
  (forall model message evs r,
      I model -> R message -> dispatch model message = (evs, r) ->
      Forall Q evs /\
      match r with
      | Ok (model', response) => Q (Sent response) /\ I model'
      | Raise _ => True
      end) ->
  forall actions model,
    I model -> Forall R (delivered actions) ->
    Forall Q (fst (loop model actions)).
Proof.
  intros Hprint Hbye Hdispatch actions.
  induction actions as [|[message|] rest IH]; intros model Hmodel Hmsgs;
    try (cbn; constructor).
  cbn [delivered] in Hmsgs. inversion Hmsgs as [|? ? Hmsg Hrest]; subst.
  destruct (lower message =? "exit") eqn:Hexit.
  - apply String.eqb_eq in Hexit. rewrite (loop_exit _ _ _ Hexit).
    unfold send. destruct (peer_open rest); cbn; repeat constructor; auto.
  - rewrite (loop_step _ _ _ Hexit).
    destruct (dispatch model message) as [evs [[model' response]|e]] eqn:Hd;
      destruct (Hdispatch _ _ _ _ Hmodel Hmsg Hd) as [Hevs Hr].
    + destruct Hr as [Hsent Hmodel'].
      rewrite bind_ok. cbn [fst snd]. unfold send.
      destruct (peer_open rest).
      * rewrite bind_emit, bind_print, !after_after. cbn [after fst].
        rewrite <- !app_assoc. cbn [app].
        constructor; [apply Hprint|].
        apply Forall_app. split; [exact Hevs|].
        constructor; [exact Hsent|].
        constructor; [apply Hprint|]. now apply IH.
      * cbn. constructor; [apply Hprint|]. now rewrite app_nil_r.
    + cbn. constructor; [apply Hprint|exact Hevs].
Qed.

Lemma handler_Forall (Q : event -> Prop) (ws : websocket) (init : Variables) :
  (forall line, Q (Printed line)) ->
  Forall Q (fst (loop (create_and_compile_model init) (script ws))) ->
  Forall Q (fst (handler ws init)).
Proof.
  intros Hprint Hloop. rewrite handler_by_loop.
  destruct (loop _ _) as [evs [[]|[|]]]; cbn [fst] in *;
    (constructor; [apply Hprint|]);
    (apply Forall_app; split; [exact Hloop|]); repeat constructor; auto.
Qed.

Lemma session_model_created (model : Sequential) :
  session_model model -> exists w, model = create_and_compile_model w.
Proof.
  induction 1 as [init|model x y epochs _ [w ->]].
  - now exists init.
  - now exists (fit_epochs w x y epochs).
Qed.

(** X1.  Whatever requests a session has served, the model it holds is
    the model of [create_and_compile_model] with other values in its
    variables: training never changes the input shape or the layers. *)
Theorem session_keeps_architecture
        (init : Variables) (served : list string)
        (evs : list event) (model : Sequential) :
  serve (create_and_compile_model init) served = Some (evs, model) ->
  exists w, model = create_and_compile_model w.
Proof.
  intros Hserve. apply session_model_created.
  apply (serve_session_model served _ _ _ Hserve). constructor.
Qed.

(** X2.  In every session, every call of [model.fit] is made on one sample
    of seven inputs and two targets, for one epoch. *)
Theorem fit_calls_well_shaped (ws : websocket) (init : Variables) :
  Forall well_shaped_fit (fst (handler ws init)).
Proof.
  apply handler_Forall; [now intros line|].
  apply (loop_Forall well_shaped_fit (fun _ => True) (fun _ => True));
    try easy.
  - intros model message evs r _ _ Hd.
    destruct (dispatch_outcomes model message)
      as [[_ H]|[(_ & v & _ & _ & H)|[(_ & _ & H)|[(_ & _ & x & y & Hx & Hy & H)
         |(_ & _ & H)]]]];
      rewrite H in Hd; inversion Hd; subst; repeat constructor; auto.
  - apply Forall_forall. auto.
Qed.

(** X3.  In every session, every text that is sent is [Goodbye!],
    [Train done], [predict:] followed by two values joined by a comma, or
    the echo of one of the messages of the session. *)
Theorem replies_well_formed (ws : websocket) (init : Variables) :
  Forall (reply_form (delivered (script ws))) (fst (handler ws init)).
Proof.
  apply handler_Forall; [now intros line|].
  apply (loop_Forall (reply_form (delivered (script ws)))
                     (fun message => In message (delivered (script ws)))
                     session_model).
  - now intros line.
  - cbn. now left.
  - intros model message evs r Hmodel Hin Hd.
    destruct (dispatch_outcomes model message)
      as [[_ H]|[(_ & v & _ & _ & H)|[(_ & _ & H)|[(_ & _ & x & y & Hx & Hy & H)
         |(_ & _ & H)]]]];
      rewrite H in Hd; inversion Hd; subst; clear Hd.
    + split; [constructor|exact I].
    + split; [constructor|]. split; [|exact Hmodel].
      destruct (keras_predict_pair model v Hmodel) as (a & b & Hab).
      cbn. right; right; left. exists a, b. now rewrite Hab.
    + split; [constructor|exact I].
    + split; [repeat constructor|]. split; [cbn; auto|now constructor].
    + split; [constructor|]. split; [|exact Hmodel].
      cbn. right; right; right. now exists message.
  - constructor.
  - apply Forall_forall. auto.
Qed.

(** X6.  A session in which no message is dispatched to training never
    calls [model.fit]. *)
Theorem no_training_no_fit (ws : websocket) (init : Variables) :
  forallb no_training (delivered (script ws)) = true ->
  count is_fit (fst (handler ws init)) = 0.
Proof.
  intros Hno.
  assert (H : Forall (fun ev => is_fit ev = false) (fst (handler ws init))).
  { apply handler_Forall; [now intros line|].
    apply (loop_Forall (fun ev => is_fit ev = false)
                       (fun message => no_training message = true)
                       (fun _ => True)); try easy.
    - intros model message evs r _ Hmsg Hd.
      unfold no_training in Hmsg.
      destruct (dispatch_outcomes model message)
        as [[_ H]|[(_ & v & _ & _ & H)|[(_ & _ & H)|[(Hp & Ht & _)
           |(_ & _ & H)]]]];
        try (rewrite H in Hd; inversion Hd; subst; repeat constructor; auto).
      rewrite Hp, Ht in Hmsg. discriminate.
    - apply Forall_forall. now apply forallb_forall. }
  unfold count. induction H as [|ev evs Hev _ IH]; [reflexivity|].
  cbn [filter]. now rewrite Hev.
Qed.

Lemma prefix_empty (s : string) : prefix EmptyString s = true.
Proof. now destruct s. Qed.

Lemma count_app (p : event -> bool) (a b : list event) :
  count p (a ++ b)%list = count p a + count p b.
Proof. unfold count. now rewrite filter_app, length_app. Qed.

(** What [dispatch] performs is at most a call of [model.fit]: no send,
    no print. *)
Lemma dispatch_events (model : Sequential) (message : string)
      (evs : list event) (r : result (Sequential * string)) :
  dispatch model message = (evs, r) ->
  count is_sent evs = 0 /\ count is_received evs = 0.
Proof.
  intros Hd.
  destruct (dispatch_outcomes model message)
    as [[_ H]|[(_ & v & _ & _ & H)|[(_ & _ & H)|[(_ & _ & x & y & _ & _ & H)
       |(_ & _ & H)]]]];
    rewrite H in Hd; inversion Hd; subst; now split.
Qed.

Lemma loop_counts (actions : list peer_action) :
  forall model : Sequential,
    count is_sent (fst (loop model actions))
    <= count is_received (fst (loop model actions))
    <= S (count is_sent (fst (loop model actions)))
    /\ count is_received (fst (loop model actions))
       <= List.length (delivered actions).
Proof.
  induction actions as [|[message|] rest IH]; intros model;
    try (cbn; lia).
  cbn [delivered List.length].
  destruct (lower message =? "exit") eqn:Hexit.
  - apply String.eqb_eq in Hexit. rewrite (loop_exit _ _ _ Hexit).
    unfold send. destruct (peer_open rest); cbn;
      rewrite prefix_empty; cbn; lia.
  - rewrite (loop_step _ _ _ Hexit).
    destruct (dispatch model message) as [evs [[model' response]|e]] eqn:Hd;
      destruct (dispatch_events _ _ _ _ Hd) as [Hs Hr].
    + rewrite bind_ok. cbn [fst snd]. unfold send.
      destruct (peer_open rest).
      * rewrite bind_emit, bind_print, !after_after. cbn [after fst].
        rewrite <- !app_assoc. cbn [app].
        destruct (IH model') as [IH1 IH2].
        change (Printed ("< " ++ message)
                  :: (evs ++ Sent response :: Printed ("> " ++ response)
                        :: fst (loop model' rest)))%list
          with ([Printed ("< " ++ message)] ++ evs
                  ++ [Sent response; Printed ("> " ++ response)]
                  ++ fst (loop model' rest))%list.
        rewrite !count_app, Hs, Hr. cbn. rewrite prefix_empty. cbn. lia.
      * cbn [after fst bind raise]. rewrite app_nil_r.
        change (Printed ("< " ++ message) :: evs)
          with ([Printed ("< " ++ message)] ++ evs)%list.
        rewrite !count_app, Hs, Hr. cbn. rewrite prefix_empty. cbn. lia.
    + cbn [after fst bind].
      change (Printed ("< " ++ message) :: evs)
        with ([Printed ("< " ++ message)] ++ evs)%list.
      rewrite !count_app, Hs, Hr. cbn. rewrite prefix_empty. cbn. lia.
Qed.

(** X4.  In every session the replies keep step with the requests: each
    message that is read gets one reply before the next one is read,
    except possibly the last one read (when it fails or the peer has
    gone).  No more messages are read than were delivered. *)
Theorem one_reply_per_request (ws : websocket) (init : Variables) :
  count is_sent (fst (handler ws init))
  <= count is_received (fst (handler ws init))
  <= S (count is_sent (fst (handler ws init)))
  /\ count is_received (fst (handler ws init))
     <= List.length (delivered (script ws)).
Proof.
  rewrite handler_by_loop.
  pose proof (loop_counts (script ws) (create_and_compile_model init)) as H.
  destruct (loop _ _) as [evs [[]|[|]]]; cbn [fst] in *;
    match goal with
    | |- context [(?a :: evs ++ ?b)%list] =>
        change (a :: evs ++ b)%list with ([a] ++ evs ++ b)%list
    end;
    rewrite !count_app; cbn; lia.
Qed.

(** When the loop returns, it has served a part of the script and then
    read an [exit] that it could answer. *)
Lemma loop_returns_inv (actions : list peer_action) :
  forall model : Sequential,
    snd (loop model actions) = Ok tt ->
    exists served message rest evs model',
      actions = (map Deliver served ++ Deliver message :: rest)%list /\
      serve model served = Some (evs, model') /\
      lower message = "exit" /\
      peer_open rest = true.
Proof.
  induction actions as [|[message|] rest IH]; intros model Hok;
    try discriminate Hok.
  destruct (lower message =? "exit") eqn:Hexit.
  - apply String.eqb_eq in Hexit. rewrite (loop_exit _ _ _ Hexit) in Hok.
    unfold send in Hok. destruct (peer_open rest) eqn:Hopen;
      [|discriminate Hok].
    now exists [], message, rest, [], model.
  - rewrite (loop_step _ _ _ Hexit) in Hok.
    destruct (dispatch model message) as [evs1 [[model1 response]|e]] eqn:Hd;
      [|discriminate Hok].
    rewrite bind_ok in Hok. cbn [fst snd after] in Hok. unfold send in Hok.
    destruct (peer_open rest); [|discriminate Hok].
    rewrite bind_emit, bind_print in Hok. cbn [snd after] in Hok.
    destruct (IH model1 Hok) as (served & last & rest' & evs2 & model2
                                 & -> & Hserve & Hlast & Hopen).
    exists (message :: served), last, rest'.
    exists (Printed ("< " ++ message) :: evs1
              ++ Sent response :: Printed ("> " ++ response) :: evs2)%list.
    exists model2. repeat split; try assumption.
    cbn [serve]. now rewrite Hexit, Hd, Hserve.
Qed.

(** X5.  The loop ends by [break] exactly when the script consists of
    messages that are served, followed by an [exit] (in any casing) that
    can be answered; nothing else ends a session without an exception. *)
Theorem loop_returns_iff_exit (model : Sequential) (actions : list peer_action) :
  snd (loop model actions) = Ok tt <->
  exists served message rest evs model',
    actions = (map Deliver served ++ Deliver message :: rest)%list /\
    serve model served = Some (evs, model') /\
    lower message = "exit" /\
    peer_open rest = true.
Proof.
  split; [apply loop_returns_inv|].
  intros (served & message & rest & evs & model' & -> & Hserve & Hexit & Hopen).
  rewrite (loop_serve served _ _ _ (Deliver message :: rest) Hserve eq_refl).
  now rewrite (loop_exit _ _ _ Hexit), (send_open _ _ Hopen).
Qed.

(** X7.  When the peer leaves after its messages have been served, without
    sending [exit], [handler] logs the closed connection and returns
    normally after the disconnection line. *)
Theorem peer_leaves_without_exit
        (ws : websocket) (init : Variables) (served : list string)
        (evs : list event) (model : Sequential) :
  script ws = map Deliver served ->
  serve (create_and_compile_model init) served = Some (evs, model) ->
  handler ws init =
  ((Printed ("Client connected from " ++ remote_address ws) :: evs
      ++ [Printed ("Connection closed unexpectedly: " ++ close_text ws);
          Printed ("Client from " ++ remote_address ws ++ " disconnected.")])%list,
   Ok tt).
Proof.
  intros Hscript Hserve.
  rewrite handler_by_loop, Hscript, <- (app_nil_r (map Deliver served)).
  rewrite (loop_serve served _ _ _ [] Hserve eq_refl).
  cbn. now rewrite app_nil_r.
Qed.

(** X8.  When the peer has gone before the reply to its last message can
    be sent, the work for that message is done all the same (a training
    request has called [model.fit]), but nothing is sent for it and no
    [>] line is printed: [handler] logs the closed connection and returns
    normally.  For [exit], [Goodbye!] is not sent. *)
Theorem reply_lost_when_peer_gone
        (ws : websocket) (init : Variables) (served : list string)
        (message : string) (rest : list peer_action)
        (evs : list event) (model : Sequential) :
  script ws = (map Deliver served ++ Deliver message :: rest)%list ->
  serve (create_and_compile_model init) served = Some (evs, model) ->
  peer_open rest = false ->
  (lower message = "exit" ->
   handler ws init =
   ((Printed ("Client connected from " ++ remote_address ws) :: evs
       ++ [Printed ("< " ++ message);
           Printed "Client sent 'exit' message. Closing connection.";
           Printed ("Connection closed unexpectedly: " ++ close_text ws);
           Printed ("Client from " ++ remote_address ws ++ " disconnected.")])%list,
    Ok tt))
  /\
  (forall (evs' : list event) (model' : Sequential) (response : string),
      lower message <> "exit" ->
      dispatch model message = (evs', Ok (model', response)) ->
      handler ws init =
      ((Printed ("Client connected from " ++ remote_address ws) :: evs
          ++ Printed ("< " ++ message) :: evs'
          ++ [Printed ("Connection closed unexpectedly: " ++ close_text ws);
              Printed ("Client from " ++ remote_address ws ++ " disconnected.")])%list,
       Ok tt)).
Proof.
  intros Hscript Hserve Hgone. split.
  - intros Hexit.
    rewrite handler_by_loop, Hscript.
    rewrite (loop_serve served _ _ _ (Deliver message :: rest) Hserve eq_refl).
    rewrite (loop_exit _ _ _ Hexit). unfold send. rewrite Hgone.
    cbn. rewrite <- !app_assoc. reflexivity.
  - intros evs' model' response Hexit Hd.
    rewrite handler_by_loop, Hscript.
    rewrite (loop_serve served _ _ _ (Deliver message :: rest) Hserve eq_refl).
    rewrite loop_step by (now apply String.eqb_neq).
    rewrite Hd, bind_ok. cbn [fst snd]. unfold send. rewrite Hgone.
    cbn. rewrite app_nil_r, <- !app_assoc. reflexivity.
Qed.

(** X9.  The reply tells how the message was dispatched: it starts with
    [predict:] exactly for a prediction request, it is [Train done]
    exactly for a training request, and it starts with
    [Processed message: '] exactly for an echoed message. *)
Theorem reply_tells_dispatch
        (model model' : Sequential) (message response : string)
        (evs : list event) :
  dispatch model message = (evs, Ok (model', response)) ->
  (prefix "predict:" response = true <-> str_in PREDICT_TAG message = true)
  /\
  (response = "Train done" <->
   str_in PREDICT_TAG message = false /\ str_in TRAIN_TAG message = true)
  /\
  (prefix "Processed message: '" response = true <->
   str_in PREDICT_TAG message = false /\ str_in TRAIN_TAG message = false).
Proof.
  intros Hd.
  destruct (dispatch_outcomes model message)
    as [[_ H]|[(Hp & v & _ & _ & H)|[(_ & _ & H)|[(Hp & Ht & x & y & _ & _ & H)
       |(Hp & Ht & H)]]]];
    rewrite H in Hd; inversion Hd; subst; clear Hd H.
  - rewrite Hp. split; [|split].
    + split; [reflexivity|]. intros _. apply (prefix_app "predict:").
    + split; [discriminate|]. intros [? _]; discriminate.
    + split; [discriminate|]. intros [? _]; discriminate.
  - rewrite Hp, Ht. split; [|split].
    + split; discriminate.
    + now split.
    + split; [discriminate|]. intros [_ ?]; discriminate.
  - rewrite Hp, Ht. split; [|split].
    + split; discriminate.
    + split; [discriminate|]. intros [_ ?]; discriminate.
    + split; [now split|]. intros _. apply (prefix_app "Processed message: '").
Qed.

(** X10.  A session of one message ends with the loop's [break] exactly
    when the message is one of the sixteen casings of [exit]: the message
    is not trimmed, and no other spelling closes the session. *)
Theorem only_exit_casings_end_session (model : Sequential) (message : string) :
  snd (loop model [Deliver message]) = Ok tt <->
  exists c1 c2 c3 c4,
    message = String c1 (String c2 (String c3 (String c4 EmptyString))) /\
    (c1 = "e"%char \/ c1 = "E"%char) /\
    (c2 = "x"%char \/ c2 = "X"%char) /\
    (c3 = "i"%char \/ c3 = "I"%char) /\
    (c4 = "t"%char \/ c4 = "T"%char).
Proof.
  rewrite <- exit_casings. split.
  - intros Hok.
    destruct (loop_returns_inv _ _ Hok)
      as (served & last & rest & evs & model' & Hscript & _ & Hexit & _).
    destruct served as [|first [|second served]]; cbn in Hscript.
    + now inversion Hscript; subst.
    + inversion Hscript.
    + inversion Hscript.
  - intros Hexit. now rewrite (loop_exit _ _ _ Hexit).
Qed.

(** X11.  [nn_test.py]: when its two payloads decode to nine and to seven
    values, the script calls [model.fit] once, on the first seven and the
    last two of the nine values, and then prints one line, the two values
    that the trained model predicts for the seven values, joined by a
    comma. *)
Theorem nn_test_trains_then_predicts
        (init : Variables) (sample input : list num) :
  np_fromstring "0.1,0.2,0.3,0.4,0.5,0.6,0.7,0.3,0.7" = Some sample ->
  List.length sample = 9 ->
  np_fromstring "0.1,0.2,0.3,0.4,0.5,0.6,0.7" = Some input ->
  List.length input = 7 ->
  let x := firstn 7 sample in
  let y := skipn 7 sample in
  let trained :=
    create_and_compile_model (fit_epochs init x y 1) in
  exists a b,
    keras_predict trained input = [a; b] /\
    nn_test_main init =
    ([Fitted x y 1; Printed (str a ++ "," ++ str b)], Ok tt).
Proof.
  intros Hsample Hlen9 Hinput Hlen7 x y trained.
  destruct (keras_predict_pair trained input (session_fresh _)) as (a & b & Hab).
  exists a, b. split; [exact Hab|].
  assert (Hx : List.length x = 7) by (unfold x; rewrite length_firstn; lia).
  assert (Hy : List.length y = 2) by (unfold y; rewrite length_skipn; lia).
  assert (Hsy : slice 7 9 sample = y).
  { unfold slice, y. cbn [Nat.sub]. apply firstn_all2. fold y. lia. }
  unfold nn_test_main, train, predict.
  rewrite (fromstring_ok _ _ Hsample), bind_ret.
  change (slice 0 7 sample) with x. rewrite Hsy.
  rewrite (reshape_1_ok _ _ Hx), bind_ret, (reshape_1_ok _ _ Hy), bind_ret.
  unfold keras_fit. rewrite bind_emit, bind_after, bind_ret.
  rewrite (fromstring_ok _ _ Hinput), bind_ret, (reshape_1_ok _ _ Hlen7).
  rewrite !bind_ret.
  change (set_variables (create_and_compile_model init)
            (fit_epochs (variables (create_and_compile_model init)) x y 1))
    with trained.
  rewrite Hab. reflexivity.
Qed.

(** X12.  A request that fails has done nothing before it failed: the
    only exception is [ValueError], and no [model.fit] has been called,
    also when a training payload has enough values for the input but not
    for the target. *)
Theorem failed_request_does_nothing
        (model : Sequential) (message : string)
        (evs : list event) (e : exn) :
  dispatch model message = (evs, Raise e) ->
  evs = [] /\ e = ValueError.
Proof.
  intros Hd.
  destruct (dispatch_outcomes model message)
    as [[_ H]|[(_ & v & _ & _ & H)|[(_ & _ & H)|[(_ & _ & x & y & _ & _ & H)
       |(_ & _ & H)]]]];
    rewrite H in Hd; inversion Hd; subst; now split.
Qed.

End Sessions.

(** *** The session theorems at concrete scripts *)

Lemma session_keeps_architecture_witness :
  exists w,
    set_variables model0
      (fit_epochs (Framework := ref_framework) (variables model0) [1; 2; 3; 4; 5; 6; 7]%Z [8; 9]%Z 1)
    = create_and_compile_model w.
Proof.
  eapply (@session_keeps_architecture ref_framework ones
            ["train:1,2,3,4,5,6,7,8,9"; "hello"]).
  reflexivity.
Defined.

Lemma no_training_no_fit_witness :
  count is_fit
    (fst (handler (ws [Deliver "predict:1,2,3,4,5,6,7"; Deliver "hello";
                       Deliver "PREDICT:train"])
                  ones)) = 0.
Proof.
  apply (@no_training_no_fit ref_framework
           (ws [Deliver "predict:1,2,3,4,5,6,7"; Deliver "hello";
                Deliver "PREDICT:train"])
           ones).
  reflexivity.
Defined.

Lemma peer_leaves_without_exit_witness :
  handler (ws [Deliver "hello"]) ones =
  ((Printed ("Client connected from " ++ "('127.0.0.1', 50000)")
      :: [Printed "< hello";
          Sent "Processed message: 'hello'";
          Printed "> Processed message: 'hello'"]
      ++ [Printed ("Connection closed unexpectedly: "
                     ++ "no close frame received or sent");
          Printed ("Client from " ++ "('127.0.0.1', 50000)" ++ " disconnected.")])%list,
   Ok tt).
Proof.
  apply (@peer_leaves_without_exit ref_framework (ws [Deliver "hello"]) ones
           ["hello"] _ model0);
    reflexivity.
Defined.

Lemma reply_lost_when_peer_gone_witness :
  handler (ws [Deliver "train:1,2,3,4,5,6,7,8,9"; Hangup]) ones =
  ((Printed ("Client connected from " ++ "('127.0.0.1', 50000)") :: []
      ++ Printed ("< " ++ "train:1,2,3,4,5,6,7,8,9")
      :: [@Fitted ref_framework [1; 2; 3; 4; 5; 6; 7]%Z [8; 9]%Z 1]
      ++ [Printed ("Connection closed unexpectedly: "
                     ++ "no close frame received or sent");
          Printed ("Client from " ++ "('127.0.0.1', 50000)" ++ " disconnected.")])%list,
   Ok tt).
Proof.
  destruct (@reply_lost_when_peer_gone ref_framework
              (ws [Deliver "train:1,2,3,4,5,6,7,8,9"; Hangup]) ones
              [] "train:1,2,3,4,5,6,7,8,9" [Hangup] [] model0
              eq_refl eq_refl eq_refl)
    as [_ Hlost].
  apply (Hlost [@Fitted ref_framework [1; 2; 3; 4; 5; 6; 7]%Z [8; 9]%Z 1]
               (set_variables model0
                  (fit_epochs (Framework := ref_framework) (variables model0)
                     [1; 2; 3; 4; 5; 6; 7]%Z [8; 9]%Z 1))
               "Train done");
    [discriminate | reflexivity].
Defined.

Lemma reply_tells_dispatch_witness :
  (prefix "predict:" "Train done" = true <->
   str_in PREDICT_TAG "train:1,2,3,4,5,6,7,8,9" = true)
  /\
  ("Train done" = "Train done" <->
   str_in PREDICT_TAG "train:1,2,3,4,5,6,7,8,9" = false /\
   str_in TRAIN_TAG "train:1,2,3,4,5,6,7,8,9" = true)
  /\
  (prefix "Processed message: '" "Train done" = true <->
   str_in PREDICT_TAG "train:1,2,3,4,5,6,7,8,9" = false /\
   str_in TRAIN_TAG "train:1,2,3,4,5,6,7,8,9" = false).
Proof.
  apply (@reply_tells_dispatch ref_framework model0
           (set_variables model0
              (fit_epochs (Framework := ref_framework) (variables model0)
                 [1; 2; 3; 4; 5; 6; 7]%Z [8; 9]%Z 1))
           "train:1,2,3,4,5,6,7,8,9" "Train done"
           [@Fitted ref_framework [1; 2; 3; 4; 5; 6; 7]%Z [8; 9]%Z 1]).
  reflexivity.
Defined.

Lemma nn_test_trains_then_predicts_witness :
  exists a b : DecimalReference.dec,
    nn_test_main (F := DecimalReference.dec_framework) DecimalReference.ones =
    ([@Fitted DecimalReference.dec_framework
        (firstn 7
           (map (fun m => {| DecimalReference.mant := m;
                             DecimalReference.scale := 1 |})
                [1; 2; 3; 4; 5; 6; 7; 3; 7]%Z))
        (skipn 7
           (map (fun m => {| DecimalReference.mant := m;
                             DecimalReference.scale := 1 |})
                [1; 2; 3; 4; 5; 6; 7; 3; 7]%Z))
        1;
      Printed (DecimalReference.dec_str a ++ "," ++ DecimalReference.dec_str b)],
     Ok tt).
Proof.
  destruct (@nn_test_trains_then_predicts DecimalReference.dec_framework
              DecimalReference.ones
              (map (fun m => {| DecimalReference.mant := m;
                                DecimalReference.scale := 1 |})
                   [1; 2; 3; 4; 5; 6; 7; 3; 7]%Z)
              (map (fun m => {| DecimalReference.mant := m;
                                DecimalReference.scale := 1 |})
                   [1; 2; 3; 4; 5; 6; 7]%Z)
              eq_refl eq_refl eq_refl eq_refl)
    as (a & b & _ & Hrun).
  exists a, b. exact Hrun.
Defined.

Lemma failed_request_does_nothing_witness :
  ([] : list event) = [] /\ ValueError = ValueError.
Proof.
  apply (@failed_request_does_nothing ref_framework model0
           "train:1,2,3,4,5,6,7,8" [] ValueError).
  reflexivity.
Defined.
